(** * Primer Webscraper API: the /crawl handler of [main.py]

    A shallow embedding of the request handler: the bearer-token gate
    ([verify_auth]), the configuration marshalling at the head of [crawl],
    the bounded retry loop around the crawl engine and the mapping of a
    successful engine result to the response dictionary. *)

From Stdlib Require Import ZArith Ascii String List Bool Lia.
From stdpp Require Import base option gmap strings list fin_maps.

Local Open Scope string_scope.

(** ** Python values *)

(** The classes of the exceptions that occur in the handler.  The last
    constructor stands for classes that derive from [BaseException] only
    ([KeyboardInterrupt], [asyncio.CancelledError], ...): an
    [except Exception] clause does not catch them. *)
Inductive exc_class :=
  | HTTPExceptionC (status_code : Z)
  | AttributeErrorC
  | ValueErrorC
  | OtherExceptionC (name : string)
  | BaseOnlyC (name : string).

(** JSON-like Python values, the values of a [Dict[str, Any]], extended with
    exception objects (line 116 stores one in the response dictionary).  A
    float is kept as its literal: the handler never computes with one. *)
#[warnings="-register-all"]
Inductive pyval :=
  | PNone
  | PBool (b : bool)
  | PInt (z : Z)
  | PFloat (literal : string)
  | PStr (s : string)
  | PList (l : list pyval)
  | PDict (d : gmap string pyval)
  | PExc (c : exc_class) (detail : pyval).

(** A raised exception: its class and its argument (the [detail] of an
    [HTTPException], the message of the others). *)
Record exn := Exn { exn_class : exc_class; exn_detail : pyval }.

Definition exn_obj (e : exn) : pyval := PExc (exn_class e) (exn_detail e).

(** [isinstance(e, Exception)] *)
Definition is_Exception (e : exn) : bool :=
  match exn_class e with
  | BaseOnlyC _ => false
  | _ => true
  end.

(** Computations that may raise. *)
Definition exc (A : Type) : Type := exn + A.

Definition ret {A} (a : A) : exc A := inr a.
Definition raise {A} (e : exn) : exc A := inl e.
Definition bind {A B} (m : exc A) (k : A -> exc B) : exc B :=
  match m with
  | inl e => inl e
  | inr a => k a
  end.

Notation "'let!' x ':=' m 'in' k" := (bind m (fun x => k))
  (at level 10, x name, m at level 100, k at level 200).

(** [obj.get(key, default)]: defined on dictionaries; on any other value of
    the model ([None], a number, a string, a list) the attribute lookup
    raises [AttributeError]. *)
Definition no_attribute_get : exn :=
  Exn AttributeErrorC (PStr "object has no attribute 'get'").

Definition get_or (d : gmap string pyval) (key : string) (default : pyval)
  : pyval :=
  match d !! key with
  | Some v => v
  | None => default
  end.

Definition py_get (obj : pyval) (key : string) (default : pyval) : exc pyval :=
  match obj with
  | PDict d => ret (get_or d key default)
  | _ => raise no_attribute_get
  end.

(** ** Strings *)

(** [str.lower()] on the characters of a header value. *)
Definition lower_ascii (c : ascii) : ascii :=
  let n := nat_of_ascii c in
  if (65 <=? n)%nat && (n <=? 90)%nat then ascii_of_nat (n + 32) else c.

Fixpoint lower (s : string) : string :=
  match s with
  | EmptyString => EmptyString
  | String c s' => String (lower_ascii c) (lower s')
  end.

(** [s.partition(" ")]: the text before the first space and the text after
    it; the whole string and the empty string when there is none. *)
Fixpoint partition_space (s : string) : string * string :=
  match s with
  | EmptyString => (EmptyString, EmptyString)
  | String c s' =>
      if Ascii.eqb c " "%char then (EmptyString, s')
      else let (a, b) := partition_space s' in (String c a, b)
  end.

(** ** Authentication (lines 16-24) *)

Record HTTPAuthorizationCredentials :=
  { scheme : string; credentials : string }.

Definition HTTPException (status : Z) (detail : pyval) : exn :=
  Exn (HTTPExceptionC status) detail.

(** The security scheme of line 17, [HTTPBearer()] of the web framework, in
    its default (auto-error) mode.  It reads the [Authorization] header,
    splits it at the first space and rejects the request itself when the
    header, the scheme word or the token is missing or the scheme word is
    not "bearer"; only otherwise are credentials handed to [verify_auth].
    The status of its rejections is 403 in the releases of the framework
    that are contemporary with the handler; its detail strings are its
    own. *)
Definition get_authorization_scheme_param (authorization : option string)
  : string * string :=
  match authorization with
  | None => ("", "")
  | Some h => partition_space h
  end.

Definition HTTPBearer_call (authorization : option string)
  : exc HTTPAuthorizationCredentials :=
  let (sch, param) := get_authorization_scheme_param authorization in
  if String.eqb sch "" || String.eqb param "" then
    raise (HTTPException 403 (PStr "Not authenticated"))
  else if negb (String.eqb (lower sch) "bearer") then
    raise (HTTPException 403 (PStr "Invalid authentication credentials"))
  else ret {| scheme := sch; credentials := param |}.

(** [PRIMER_API_TOKEN = os.getenv("PRIMER_API_TOKEN")]: [None] when the
    variable is not set, and then no token compares equal to it. *)
Definition token_matches (tok : string) (secret : option string) : bool :=
  match secret with
  | Some s => String.eqb tok s
  | None => false
  end.

Definition verify_auth (PRIMER_API_TOKEN : option string)
    (c : HTTPAuthorizationCredentials) : exc bool :=
  if negb (String.eqb (lower (scheme c)) "bearer")
     || negb (token_matches (credentials c) PRIMER_API_TOKEN)
  then raise (HTTPException 401 (PStr "Invalid or missing token"))
  else ret true.

(** [Depends(verify_auth)] with [Security(security)]. *)
Definition authenticate (PRIMER_API_TOKEN : option string)
    (authorization : option string) : exc bool :=
  let! c := HTTPBearer_call authorization in
  verify_auth PRIMER_API_TOKEN c.

(** ** The request and the configuration objects *)

Record CrawlRequest := {
  url : string;
  browser_config : option (gmap string pyval);
  crawler_config : option (gmap string pyval)
}.

(** An [Optional[Dict[str, Any]]] attribute as a value. *)
Definition optional_dict (o : option (gmap string pyval)) : pyval :=
  match o with
  | Some d => PDict d
  | None => PNone
  end.

(** The configuration classes of the crawl engine hold the keyword arguments
    they are built from. *)
Record BrowserConfig := {
  bc_verbose : pyval;
  bc_headless : pyval;
  bc_text_mode : pyval
}.

Record PruningContentFilter := {
  threshold : pyval;
  threshold_type : pyval;
  min_word_threshold : pyval
}.

Record DefaultMarkdownGenerator := {
  ignore_links : pyval;
  ignore_images : pyval;
  escape_html : pyval
}.

Record CrawlerRunConfig := {
  cache_mode : pyval;
  verbose : pyval;
  wait_until : pyval;
  only_text : pyval;
  excluded_tags : pyval;
  exclude_external_links : pyval;
  exclude_social_media_links : pyval;
  exclude_external_images : pyval;
  remove_overlay_elements : pyval;
  page_timeout : pyval;
  content_filter : PruningContentFilter;
  markdown_generator : DefaultMarkdownGenerator
}.

Definition default_excluded_tags : pyval :=
  PList (map PStr ["form"; "nav"; "footer"; "header"; "aside"; "script";
                    "style"; "iframe"]).

(** The documented defaults: what the [.get] calls of lines 39-75 fall back
    to.  The cache mode has none that can be reached (see [normalize]). *)
Definition default_browser_config : BrowserConfig :=
  {| bc_verbose := PBool true; bc_headless := PBool false;
     bc_text_mode := PBool true |}.

Definition default_run_config (cm : pyval) : CrawlerRunConfig :=
  {| cache_mode := cm; verbose := PBool true; wait_until := PStr "load";
     only_text := PBool true; excluded_tags := default_excluded_tags;
     exclude_external_links := PBool true;
     exclude_social_media_links := PBool true;
     exclude_external_images := PBool true;
     remove_overlay_elements := PBool true;
     page_timeout := PInt 180000;
     content_filter :=
       {| threshold := PFloat "0.9"; threshold_type := PStr "dynamic";
          min_word_threshold := PInt 50 |};
     markdown_generator :=
       {| ignore_links := PBool true; ignore_images := PBool true;
          escape_html := PBool true |} |}.

(** The least a request must spell out for the handler to get past line 78:
    an object for [browser_config], and a [crawler_config] with objects for
    [content_filter] and [markdown_generator] and a [cache_mode]. *)
Definition minimal_request (u : string) (cm : pyval) : CrawlRequest :=
  {| url := u;
     browser_config := Some ∅;
     crawler_config :=
       Some (<["content_filter" := PDict ∅]>
            (<["markdown_generator" := PDict ∅]>
            (<["cache_mode" := cm]> ∅))) |}.

(** A request that leaves both configuration sections out. *)
Definition bare_request (u : string) : CrawlRequest :=
  {| url := u; browser_config := None; crawler_config := None |}.

(** ** The crawl engine *)

(** Modelled from the spec: the result class of the external crawl engine is
    not declared in this repository; its fields are the attributes the
    handler reads (lines 89-107) with the types of the data model,
    [{ success: bool, error_message: string?, status_code: int?,
       metadata: mapping(string -> any), raw_markdown: string }]. *)
Record MarkdownGenerationResult := { raw_markdown : string }.

Record CrawlResult := {
  success : bool;
  error_message : option string;
  status_code : option Z;
  metadata : gmap string pyval;
  markdown_v2 : MarkdownGenerationResult
}.

(** One scoped engine session ([async with AsyncWebCrawler(...)] around one
    [arun]): it raises, or it hands back a result and closes. *)
Inductive engine_outcome :=
  | EngRaise (e : exn)
  | EngResult (r : CrawlResult).

(** ** What the handler does to the outside *)

Inductive log_line :=
  | LogException (ex : exn)
  | LogFailed (u : string) (retries : nat)
  | LogWaiting (attempt retries : nat).

(** [EvInvoke] is the awaited engine session of lines 83-87, [EvPrint] a
    [print] and [EvSleep] the [time.sleep] of line 120. *)
Inductive event :=
  | EvInvoke (i : nat) (u : string) (bc : BrowserConfig) (cc : CrawlerRunConfig)
  | EvPrint (l : log_line)
  | EvSleep (seconds : Z).

Definition is_invoke (e : event) : bool :=
  match e with EvInvoke _ _ _ _ => true | _ => false end.

Definition is_sleep (e : event) : bool :=
  match e with EvSleep _ => true | _ => false end.

Definition invocations (tr : list event) : nat :=
  length (List.filter is_invoke tr).

(** The engine calls and the delays of a trace, in order. *)
Inductive timing := Call (i : nat) | Delay (seconds : Z).

Fixpoint schedule (tr : list event) : list timing :=
  match tr with
  | [] => []
  | EvInvoke i _ _ _ :: tr' => Call i :: schedule tr'
  | EvSleep s :: tr' => Delay s :: schedule tr'
  | EvPrint _ :: tr' => schedule tr'
  end.

Definition optional_str (o : option string) : pyval :=
  match o with Some s => PStr s | None => PNone end.

Definition optional_int (o : option Z) : pyval :=
  match o with Some z => PInt z | None => PNone end.

(** [d.get(key)] on a dictionary. *)
Definition dict_get (d : gmap string pyval) (key : string) : pyval :=
  get_or d key PNone.

(** The dictionary display of lines 97-108. *)
Definition result_mapper (result : CrawlResult) : gmap string pyval :=
  <["success" := PBool true]>
  (<["title" := dict_get (metadata result) "og:title"]>
  (<["description" := dict_get (metadata result) "og:description"]>
  (<["type" := dict_get (metadata result) "og:type"]>
  (<["image" := dict_get (metadata result) "og:image"]>
  (<["url" := dict_get (metadata result) "og:url"]>
  (<["site_name" := dict_get (metadata result) "og:site_name"]>
  (<["author" := dict_get (metadata result) "author"]>
  (<["keywords" := dict_get (metadata result) "keywords"]>
  (<["raw_markdown" := PStr (raw_markdown (markdown_v2 result))]> ∅))))))))).

(** The exception of lines 90-96. *)
Definition not_success_exception (result : CrawlResult) : exn :=
  HTTPException 400
    (PDict (<["error" := optional_str (error_message result)]>
           (<["status_code" := optional_int (status_code result)]> ∅))).

(** The dictionary display of lines 114-118. *)
Definition failure_payload (ex : exn) : gmap string pyval :=
  <["success" := PBool false]>
  (<["message" := exn_obj ex]>
  (<["content" := PNone]> ∅)).

(** What the framework's response encoder makes of the value stored under
    [message].  The returned dictionary is encoded to JSON; a value that is
    neither a scalar, a list nor a dictionary is replaced by the dictionary
    of its instance attributes ([vars]).  An [HTTPException] has three,
    [status_code], [detail] and [headers]; the other exceptions of the model
    stand for built-in ones, which keep their text in [args] and have no
    instance attribute. *)
Definition instance_attributes (c : exc_class) (detail : pyval)
  : gmap string pyval :=
  match c with
  | HTTPExceptionC status =>
      <["status_code" := PInt status]>
      (<["detail" := detail]>
      (<["headers" := PNone]> ∅))
  | _ => ∅
  end.

Definition encoded (v : pyval) : pyval :=
  match v with
  | PExc c detail => PDict (instance_attributes c detail)
  | _ => v
  end.

Definition max_retries : nat := 5.

Section Handler.

(** The values of the members of the engine's [CacheMode] enumeration; a
    member is represented by its value. *)
Variable CacheMode_member : pyval -> bool.

(** The engine as a stub: its answer to the invocation of attempt [i]. *)
Variable engine :
  nat -> string -> BrowserConfig -> CrawlerRunConfig -> engine_outcome.

(** [CacheMode(value)]: the member with that value, [ValueError] when
    there is none. *)
Definition CacheMode (value : pyval) : exc pyval :=
  if CacheMode_member value then ret value
  else raise (Exn ValueErrorC (PStr "is not a valid CacheMode")).

(** Lines 38-78.  Keyword arguments are evaluated left to right.  In
    [CacheMode(...) or CacheMode.BYPASS] the left operand is an
    enumeration member, which is truthy, so the expression is that
    member. *)
Definition normalize (request : CrawlRequest)
  : exc (BrowserConfig * CrawlerRunConfig) :=
  let rbc := optional_dict (browser_config request) in
  let! v := py_get rbc "verbose" (PBool true) in
  let! h := py_get rbc "headless" (PBool false) in
  let! t := py_get rbc "text_mode" (PBool true) in
  let bc := {| bc_verbose := v; bc_headless := h; bc_text_mode := t |} in
  let cc := optional_dict (crawler_config request) in
  let! cf := py_get cc "content_filter" PNone in
  let! th := py_get cf "threshold" (PFloat "0.9") in
  let! tt := py_get cf "threshold_type" (PStr "dynamic") in
  let! mw := py_get cf "min_word_threshold" (PInt 50) in
  let prune_filter :=
    {| threshold := th; threshold_type := tt; min_word_threshold := mw |} in
  let! mg := py_get cc "markdown_generator" PNone in
  let! il := py_get mg "ignore_links" (PBool true) in
  let! ii := py_get mg "ignore_images" (PBool true) in
  let! eh := py_get mg "escape_html" (PBool true) in
  let md_generator :=
    {| ignore_links := il; ignore_images := ii; escape_html := eh |} in
  let! cmv := py_get cc "cache_mode" PNone in
  let! cm := CacheMode cmv in
  let! vb := py_get cc "verbose" (PBool true) in
  let! wu := py_get cc "wait_until" (PStr "load") in
  let! ot := py_get cc "only_text" (PBool true) in
  let! et := py_get cc "excluded_tags" default_excluded_tags in
  let! el := py_get cc "exclude_external_links" (PBool true) in
  let! es := py_get cc "exclude_social_media_links" (PBool true) in
  let! ei := py_get cc "exclude_external_images" (PBool true) in
  let! ro := py_get cc "remove_overlay_elements" (PBool true) in
  let! pt := py_get cc "page_timeout" (PInt 180000) in
  ret (bc,
       {| cache_mode := cm; verbose := vb; wait_until := wu;
          only_text := ot; excluded_tags := et;
          exclude_external_links := el; exclude_social_media_links := es;
          exclude_external_images := ei; remove_overlay_elements := ro;
          page_timeout := pt; content_filter := prune_filter;
          markdown_generator := md_generator |}).

(** The body of the [try] (lines 83-108). *)
Definition attempt (o : engine_outcome) : exc pyval :=
  match o with
  | EngRaise e => raise e
  | EngResult result =>
      if negb (success result) then raise (not_success_exception result)
      else ret (PDict (result_mapper result))
  end.

(** Lines 81-120, [for i in range(max_retries)] over the remaining
    indices.  The result is what the handler returns or raises, with the
    events of the run in order.  An exception outside [Exception] is not
    caught; a loop that ends without [return] returns [None]. *)
Fixpoint retry_loop (u : string) (bc : BrowserConfig) (cc : CrawlerRunConfig)
    (range : list nat) : exc pyval * list event :=
  match range with
  | [] => (ret PNone, [])
  | i :: rest =>
      match attempt (engine i u bc cc) with
      | inr response => (ret response, [EvInvoke i u bc cc])
      | inl ex =>
          if is_Exception ex then
            if Nat.eqb i (max_retries - 1) then
              (ret (PDict (failure_payload ex)),
               [EvInvoke i u bc cc; EvPrint (LogException ex);
                EvPrint (LogFailed u max_retries)])
            else
              let (r, tr) := retry_loop u bc cc rest in
              (r, EvInvoke i u bc cc :: EvPrint (LogException ex)
                    :: EvPrint (LogWaiting (i + 1) max_retries)
                    :: EvSleep 5 :: tr)
          else (raise ex, [EvInvoke i u bc cc])
      end
  end.

(** The handler [crawl]. *)
Definition crawl (request : CrawlRequest) : exc pyval * list event :=
  match normalize request with
  | inl e => (raise e, [])
  | inr (bc, cc) => retry_loop (url request) bc cc (seq 0 max_retries)
  end.

(** [POST /crawl]: the dependency [verify_auth], fed by the security
    scheme, runs before the handler; when it raises, the handler is not
    entered. *)
Definition post_crawl (PRIMER_API_TOKEN : option string)
    (authorization : option string) (request : CrawlRequest)
  : exc pyval * list event :=
  match authenticate PRIMER_API_TOKEN authorization with
  | inl e => (raise e, [])
  | inr _ => crawl request
  end.

End Handler.

(** ** Outcomes of one attempt *)

(** The attempt fails: the engine raises an error, or its result says
    [success = false]. *)
Definition fails (o : engine_outcome) : Prop :=
  match o with
  | EngRaise e => is_Exception e = true
  | EngResult r => success r = false
  end.

Definition succeeds_with (o : engine_outcome) (r : CrawlResult) : Prop :=
  o = EngResult r /\ success r = true.

(** The exception the handler's [except] clause binds on a failed attempt. *)
Definition failure (o : engine_outcome) : exn :=
  match o with
  | EngRaise e => e
  | EngResult r => not_success_exception r
  end.


(** The calls and delays of a run that fails on the [n] indices from [a] on
    and ends with the call of index [a + n]. *)
Definition retries_then_last (a n : nat) : list timing :=
  flat_map (fun i => [Call i; Delay 5]) (seq a n) ++ [Call (a + n)].

(** The exceptions a trace prints (line 111). *)
Fixpoint printed_exceptions (tr : list event) : list exn :=
  match tr with
  | [] => []
  | EvPrint (LogException ex) :: tr' => ex :: printed_exceptions tr'
  | _ :: tr' => printed_exceptions tr'
  end.

(** Response fields and the metadata keys they are read from (lines 99-106). *)
Definition metadata_fields : list (string * string) :=
  [("title", "og:title"); ("description", "og:description");
   ("type", "og:type"); ("image", "og:image"); ("url", "og:url");
   ("site_name", "og:site_name"); ("author", "author");
   ("keywords", "keywords")].

(** ** The event loop

    [crawl] is an [async def]: the server runs the handlers of all in-flight
    requests as coroutines on one thread.  A coroutine keeps the thread
    until it reaches an [await] or returns; only then can the loop resume
    another one.  The awaits of [crawl] are those of the engine session
    (lines 83-87); [print] and [time.sleep] are ordinary calls. *)

Module EventLoop.

Inductive task := First | Second.

Definition suspends (e : event) : bool := is_invoke e.

(** Who holds the thread ([None]: the loop itself) and what each of two
    handlers has left to do. *)
Record loop_state := {
  holder : option task;
  todo_first : list event;
  todo_second : list event
}.

(** The holder after task [t] has done [e] with [rest] left. *)
Definition after (t : task) (e : event) (rest : list event) : option task :=
  match rest with
  | [] => None
  | _ :: _ => if suspends e then None else Some t
  end.

Inductive loop_step : loop_state -> task * event -> loop_state -> Prop :=
  | step_first h e r1 r2 :
      h <> Some Second ->
      loop_step {| holder := h; todo_first := e :: r1; todo_second := r2 |}
                (First, e)
                {| holder := after First e r1; todo_first := r1;
                   todo_second := r2 |}
  | step_second h e r1 r2 :
      h <> Some First ->
      loop_step {| holder := h; todo_first := r1; todo_second := e :: r2 |}
                (Second, e)
                {| holder := after Second e r2; todo_first := r1;
                   todo_second := r2 |}.

(** The (partial) runs of the loop from a state. *)
Inductive loop_run : loop_state -> list (task * event) -> Prop :=
  | run_stop s : loop_run s []
  | run_step s l s' ls :
      loop_step s l s' -> loop_run s' ls -> loop_run s (l :: ls).

Definition todo (t : task) (s : loop_state) : list event :=
  match t with
  | First => todo_first s
  | Second => todo_second s
  end.

Definition at_delay (tr : list event) : bool :=
  match tr with
  | e :: _ => is_sleep e
  | [] => false
  end.

Definition at_call (tr : list event) : bool :=
  match tr with
  | e :: _ => is_invoke e
  | [] => false
  end.

(** Every delay of a trace comes straight after an ordinary call and is
    followed straight by an engine call. *)
Fixpoint delays_enclosed (tr : list event) : bool :=
  match tr with
  | [] => true
  | e :: tr' =>
      (if is_sleep e then at_call tr' else true)
      && (if at_delay tr' then negb (suspends e) else true)
      && delays_enclosed tr'
  end.

(** When task [t] is about to sleep, it holds the thread. *)
Definition holds_at_delay (t : task) (s : loop_state) : Prop :=
  delays_enclosed (todo t s) = true
  /\ (at_delay (todo t s) = true -> holder s = Some t).

(** Two requests in flight, both about to enter their handlers. *)
Definition two_requests (tr1 tr2 : list event) : loop_state :=
  {| holder := None; todo_first := tr1; todo_second := tr2 |}.

End EventLoop.

(** ** Traces of the retry loop *)

(** What a failed attempt that is retried leaves in the trace (lines 83-87,
    111, 119, 120). *)
Definition retried (u : string) (bc : BrowserConfig) (cc : CrawlerRunConfig)
    (i : nat) (ex : exn) : list event :=
  [EvInvoke i u bc cc; EvPrint (LogException ex);
   EvPrint (LogWaiting (i + 1) max_retries); EvSleep 5].

(** What the last attempt leaves when it fails too (lines 83-87, 111, 113). *)
Definition gave_up (u : string) (bc : BrowserConfig) (cc : CrawlerRunConfig)
    (i : nat) (ex : exn) : list event :=
  [EvInvoke i u bc cc; EvPrint (LogException ex);
   EvPrint (LogFailed u max_retries)].

(** The engine calls of a trace. *)
Definition calls (tr : list event) : list event := List.filter is_invoke tr.

(** The keys the handler reads from [browser_config] (lines 39-41) and from
    [crawler_config] (lines 47, 55, 66-75). *)
Definition browser_keys : list string := ["verbose"; "headless"; "text_mode"].

Definition crawler_keys : list string :=
  ["content_filter"; "markdown_generator"; "cache_mode"; "verbose";
   "wait_until"; "only_text"; "excluded_tags"; "exclude_external_links";
   "exclude_social_media_links"; "exclude_external_images";
   "remove_overlay_elements"; "page_timeout"].

(** ** Sample data *)

Module Samples.

(** The values of the engine's cache modes. *)
Definition cache_modes (v : pyval) : bool :=
  match v with
  | PStr s => bool_decide (s ∈ ["enabled"; "disabled"; "read_only";
                                "write_only"; "bypass"])
  | _ => false
  end.

Definition secret : option string := Some "s3cret".

Definition example_url : string := "https://example.org/".

Definition full_request : CrawlRequest :=
  minimal_request example_url (PStr "bypass").

Definition bearer : option string := Some "Bearer s3cret".

Definition page : CrawlResult :=
  {| success := true; error_message := None; status_code := Some 200%Z;
     metadata := <["og:description" := PStr "An example"]> ∅;
     markdown_v2 := {| raw_markdown := "# Example" |} |}.

Definition not_found : CrawlResult :=
  {| success := false; error_message := Some "not found";
     status_code := Some 404%Z; metadata := ∅;
     markdown_v2 := {| raw_markdown := "" |} |}.

Definition timeout_error : exn :=
  Exn (OtherExceptionC "TimeoutError") (PStr "page load timed out").

Definition down (i : nat) (u : string) (bc : BrowserConfig)
    (cc : CrawlerRunConfig) : engine_outcome :=
  if Nat.even i then EngRaise timeout_error else EngResult not_found.

Definition up (i : nat) (u : string) (bc : BrowserConfig)
    (cc : CrawlerRunConfig) : engine_outcome :=
  EngResult page.

(** The engine's task is cancelled: [asyncio.CancelledError] derives from
    [BaseException] only. *)
Definition cancelled_error : exn :=
  Exn (BaseOnlyC "CancelledError") (PStr "").

Definition cancelled (i : nat) (u : string) (bc : BrowserConfig)
    (cc : CrawlerRunConfig) : engine_outcome :=
  EngRaise cancelled_error.

Definition up_at_last (i : nat) (u : string) (bc : BrowserConfig)
    (cc : CrawlerRunConfig) : engine_outcome :=
  if Nat.eqb i 4 then EngResult page else down i u bc cc.

Definition up_after_one (i : nat) (u : string) (bc : BrowserConfig)
    (cc : CrawlerRunConfig) : engine_outcome :=
  if Nat.eqb i 0 then EngResult not_found else EngResult page.

(** The engine call of attempt [i] for [full_request]. *)
Definition call (i : nat) : event :=
  EvInvoke i example_url default_browser_config
    (default_run_config (PStr "bypass")).

(** Two requests in flight, the first one's engine failing once: a run
    of the event loop in which the second request is served only after
    the first one's delay and retry. *)
Definition stalled_run : list (EventLoop.task * event) :=
  [(EventLoop.First, call 0);
   (EventLoop.First, EvPrint (LogException (not_success_exception not_found)));
   (EventLoop.First, EvPrint (LogWaiting 1 5));
   (EventLoop.First, EvSleep 5);
   (EventLoop.First, call 1);
   (EventLoop.Second, call 0)].

(** A request that spells out the sections but no cache mode. *)
Definition no_cache_mode_request : CrawlRequest :=
  {| url := example_url;
     browser_config := Some ∅;
     crawler_config :=
       Some (<["content_filter" := PDict ∅]>
            (<["markdown_generator" := PDict ∅]> ∅)) |}.

(** A request that overrides some defaults, one of them with [null]. *)
Definition custom_request : CrawlRequest :=
  {| url := example_url;
     browser_config := Some (<["headless" := PBool true]> ∅);
     crawler_config :=
       Some (<["content_filter" := PDict (<["threshold" := PFloat "0.5"]> ∅)]>
            (<["markdown_generator" := PDict ∅]>
            (<["cache_mode" := PStr "enabled"]>
            (<["page_timeout" := PNone]> ∅)))) |}.

(** An engine that fails twice and then has the page. *)
Definition flaky (i : nat) (u : string) (bc : BrowserConfig)
    (cc : CrawlerRunConfig) : engine_outcome :=
  if Nat.ltb i 2 then down i u bc cc else EngResult page.

(** An engine that fails twice and is cancelled on the third attempt. *)
Definition cancelled_at_third (i : nat) (u : string) (bc : BrowserConfig)
    (cc : CrawlerRunConfig) : engine_outcome :=
  if Nat.ltb i 2 then down i u bc cc else EngRaise cancelled_error.

End Samples.

(** * Properties *)

(** ** Response dictionaries *)

Lemma failure_payload_success ex :
  failure_payload ex !! "success" = Some (PBool false).
Proof. reflexivity. Qed.

Lemma failure_payload_message ex :
  failure_payload ex !! "message" = Some (exn_obj ex).
Proof. reflexivity. Qed.

Lemma failure_payload_content ex :
  failure_payload ex !! "content" = Some PNone.
Proof. reflexivity. Qed.

Lemma failure_payload_dom ex :
  dom (failure_payload ex)
  = ({[ "success"; "message"; "content" ]} : gset string).
Proof. unfold failure_payload. rewrite !dom_insert_L. set_solver. Qed.

Lemma result_mapper_success r :
  result_mapper r !! "success" = Some (PBool true).
Proof. reflexivity. Qed.

Lemma result_mapper_raw_markdown r :
  result_mapper r !! "raw_markdown"
  = Some (PStr (raw_markdown (markdown_v2 r))).
Proof. reflexivity. Qed.

Lemma result_mapper_fields r field key :
  In (field, key) metadata_fields ->
  result_mapper r !! field = Some (dict_get (metadata r) key).
Proof.
  unfold metadata_fields. simpl.
  intros H. repeat destruct H as [H | H]; try contradiction;
    injection H as <- <-; reflexivity.
Qed.

Lemma exn_obj_not_None ex : exn_obj ex <> PNone.
Proof. discriminate. Qed.

(** ** One attempt *)

Lemma is_Exception_not_success r :
  is_Exception (not_success_exception r) = true.
Proof. reflexivity. Qed.

Lemma attempt_fails o :
  fails o -> attempt o = raise (failure o) /\ is_Exception (failure o) = true.
Proof.
  destruct o as [e | r]; simpl; intros H.
  - split; [reflexivity | exact H].
  - rewrite H. split; reflexivity.
Qed.

Lemma attempt_succeeds o r :
  succeeds_with o r -> attempt o = ret (PDict (result_mapper r)).
Proof. intros [-> H]. simpl. rewrite H. reflexivity. Qed.


Lemma attempt_raises_Exception o ex :
  (forall e, o = EngRaise e -> is_Exception e = true) ->
  attempt o = raise ex -> is_Exception ex = true.
Proof.
  destruct o as [e | r]; simpl; intros Hraise H.
  - injection H as <-. apply Hraise. reflexivity.
  - destruct (success r); simpl in H; [discriminate |].
    injection H as <-. reflexivity.
Qed.

Lemma attempt_raised_fails o ex :
  (forall e, o = EngRaise e -> is_Exception e = true) ->
  attempt o = raise ex -> fails o.
Proof.
  destruct o as [e | r]; simpl; intros Hraise H.
  - apply Hraise. reflexivity.
  - destruct (success r); [discriminate | reflexivity].
Qed.

Lemma attempt_returns o v :
  attempt o = ret v ->
  exists r, succeeds_with o r /\ v = PDict (result_mapper r).
Proof.
  destruct o as [e | r]; simpl; intros H; [discriminate |].
  destruct (success r) eqn:E; simpl in H; [| discriminate].
  injection H as <-. exists r. split; [split |]; auto.
Qed.

(** ** The retry loop *)

Lemma invocations_retry i u bc cc l1 l2 s tr :
  invocations (EvInvoke i u bc cc :: EvPrint l1 :: EvPrint l2 :: EvSleep s :: tr)
  = S (invocations tr).
Proof. reflexivity. Qed.

Lemma printed_exceptions_retry i u bc cc ex k m s tr :
  printed_exceptions
    (EvInvoke i u bc cc :: EvPrint (LogException ex)
       :: EvPrint (LogWaiting k m) :: EvSleep s :: tr)
  = ex :: printed_exceptions tr.
Proof. reflexivity. Qed.

Lemma schedule_retry i u bc cc l1 l2 s tr :
  schedule (EvInvoke i u bc cc :: EvPrint l1 :: EvPrint l2 :: EvSleep s :: tr)
  = Call i :: Delay s :: schedule tr.
Proof. reflexivity. Qed.

Section RetryLoop.

Variable engine :
  nat -> string -> BrowserConfig -> CrawlerRunConfig -> engine_outcome.
Variables (u : string) (bc : BrowserConfig) (cc : CrawlerRunConfig).

Local Abbreviation out i := (engine i u bc cc).
Local Abbreviation loop := (retry_loop engine u bc cc).

Lemma retry_loop_success i rest r :
  succeeds_with (out i) r ->
  loop (i :: rest) = (ret (PDict (result_mapper r)), [EvInvoke i u bc cc]).
Proof.
  intros H. apply attempt_succeeds in H. simpl.
  rewrite H. reflexivity.
Qed.

Lemma retry_loop_give_up i rest :
  fails (out i) -> i = max_retries - 1 ->
  loop (i :: rest) =
    (ret (PDict (failure_payload (failure (out i)))),
     [EvInvoke i u bc cc; EvPrint (LogException (failure (out i)));
      EvPrint (LogFailed u max_retries)]).
Proof.
  intros H Hi. apply attempt_fails in H as [Ha He].
  cbn [retry_loop]. rewrite Ha. unfold raise. rewrite He.
  rewrite (proj2 (Nat.eqb_eq _ _) Hi). reflexivity.
Qed.

Lemma retry_loop_retry i rest :
  fails (out i) -> i <> max_retries - 1 ->
  loop (i :: rest) =
    ((loop rest).1,
     EvInvoke i u bc cc :: EvPrint (LogException (failure (out i)))
       :: EvPrint (LogWaiting (i + 1) max_retries) :: EvSleep 5
       :: (loop rest).2).
Proof.
  intros H Hi. apply attempt_fails in H as [Ha He].
  cbn [retry_loop]. rewrite Ha. unfold raise. rewrite He.
  rewrite (proj2 (Nat.eqb_neq _ _) Hi).
  destruct (retry_loop engine u bc cc rest). reflexivity.
Qed.

(** Every attempt from [a] on fails: the loop runs to the last index. *)
Lemma retry_loop_all_fail n a :
  a + S n = max_retries ->
  (forall i, a <= i < max_retries -> fails (out i)) ->
  (loop (seq a (S n))).1
    = ret (PDict (failure_payload (failure (out (max_retries - 1)))))
  /\ invocations (loop (seq a (S n))).2 = S n
  /\ printed_exceptions (loop (seq a (S n))).2
     = map (fun i => failure (out i)) (seq a (S n)).
Proof.
  revert a. induction n as [| n IH]; intros a Ha Hf.
  - assert (a = max_retries - 1) as Ea by lia.
    change (seq a 1) with [a].
    rewrite retry_loop_give_up by (auto; apply Hf; lia).
    rewrite <- Ea. repeat split.
  - assert (a <> max_retries - 1) as Na by lia.
    change (seq a (S (S n))) with (a :: seq (S a) (S n)).
    rewrite retry_loop_retry by (auto; apply Hf; lia).
    destruct (IH (S a)) as (Hr & Hc & Hp); [lia | intros; apply Hf; lia |].
    cbn [fst snd]. repeat split.
    + exact Hr.
    + rewrite invocations_retry, Hc. reflexivity.
    + rewrite printed_exceptions_retry, Hp. reflexivity.
Qed.

Lemma retry_loop_last_succeeds n a r :
  a + S n = max_retries ->
  (forall i, a <= i < max_retries - 1 -> fails (out i)) ->
  succeeds_with (out (max_retries - 1)) r ->
  (loop (seq a (S n))).1 = ret (PDict (result_mapper r))
  /\ invocations (loop (seq a (S n))).2 = S n
  /\ schedule (loop (seq a (S n))).2 = retries_then_last a n.
Proof.
  revert a. induction n as [| n IH]; intros a Ha Hf Hs.
  - assert (a = max_retries - 1) as Ea by lia.
    change (seq a 1) with [a].
    rewrite (retry_loop_success a [] r) by (rewrite Ea; exact Hs).
    unfold retries_then_last. simpl. rewrite Nat.add_0_r. repeat split.
  - assert (a <> max_retries - 1) as Na by lia.
    change (seq a (S (S n))) with (a :: seq (S a) (S n)).
    rewrite retry_loop_retry by (auto; apply Hf; lia).
    destruct (IH (S a)) as (Hr & Hc & Hp);
      [lia | intros; apply Hf; lia | auto |].
    cbn [fst snd]. repeat split.
    + exact Hr.
    + rewrite invocations_retry, Hc. reflexivity.
    + rewrite schedule_retry, Hp. unfold retries_then_last.
      replace (a + S n) with (S a + n) by lia. reflexivity.
Qed.

(** Whatever the engine does, short of an exception outside [Exception],
    the loop returns a dictionary with a boolean [success]. *)
Lemma retry_loop_returns n a :
  a + S n = max_retries ->
  (forall i e, out i = EngRaise e -> is_Exception e = true) ->
  exists d b,
    (loop (seq a (S n))).1 = ret (PDict d)
    /\ d !! "success" = Some (PBool b)
    /\ 1 <= invocations (loop (seq a (S n))).2 <= S n.
Proof.
  revert a. induction n as [| n IH]; intros a Ha Hx;
    destruct (attempt (out a)) as [ex | v] eqn:Hat.
  - apply attempt_raised_fails in Hat; [| apply (Hx a)].
    change (seq a 1) with [a].
    rewrite retry_loop_give_up by (auto; lia).
    eexists _, false. cbn [fst snd].
    split; [reflexivity | split; [reflexivity |]].
    unfold invocations; simpl; lia.
  - apply attempt_returns in Hat as (r & Hs & ->).
    change (seq a 1) with [a]. rewrite (retry_loop_success a [] r Hs).
    eexists _, true. cbn [fst snd].
    split; [reflexivity | split; [reflexivity |]].
    unfold invocations; simpl; lia.
  - apply attempt_raised_fails in Hat; [| apply (Hx a)].
    change (seq a (S (S n))) with (a :: seq (S a) (S n)).
    rewrite retry_loop_retry by (auto; lia).
    destruct (IH (S a)) as (d & b & Hr & Hd & Hc); [lia | exact Hx |].
    exists d, b. cbn [fst snd]. rewrite invocations_retry.
    split; [exact Hr | split; [exact Hd | lia]].
  - apply attempt_returns in Hat as (r & Hs & ->).
    change (seq a (S (S n))) with (a :: seq (S a) (S n)).
    rewrite (retry_loop_success a _ r Hs).
    eexists _, true. cbn [fst snd].
    split; [reflexivity | split; [reflexivity |]].
    unfold invocations; simpl; lia.
Qed.



End RetryLoop.

(** ** Requests that reach the retry loop *)

Section Crawl.

Variable CacheMode_member : pyval -> bool.
Variable engine :
  nat -> string -> BrowserConfig -> CrawlerRunConfig -> engine_outcome.

Lemma post_crawl_enters_loop secret authz request bc cc :
  authenticate secret authz = ret true ->
  normalize CacheMode_member request = ret (bc, cc) ->
  post_crawl CacheMode_member engine secret authz request
  = retry_loop engine (url request) bc cc (seq 0 max_retries).
Proof.
  intros Ha Hn. unfold post_crawl, crawl.
  rewrite Ha, Hn. reflexivity.
Qed.

(** C1.  A request with valid authentication whose engine fails on every
    attempt -- it raises an error or reports [success = false] -- has the
    engine invoked exactly five times and is answered with the terminal
    payload [{success: false, message: <not None>, content: None}], which
    has these three keys and no other. *)
Theorem engine_fails_on_every_attempt secret authz request bc cc :
  authenticate secret authz = ret true ->
  normalize CacheMode_member request = ret (bc, cc) ->
  (forall i, i < max_retries -> fails (engine i (url request) bc cc)) ->
  exists ex tr,
    post_crawl CacheMode_member engine secret authz request
    = (ret (PDict (failure_payload ex)), tr)
    /\ invocations tr = 5
    /\ failure_payload ex !! "success" = Some (PBool false)
    /\ (exists m, failure_payload ex !! "message" = Some m /\ m <> PNone)
    /\ failure_payload ex !! "content" = Some PNone
    /\ dom (failure_payload ex)
       = ({[ "success"; "message"; "content" ]} : gset string).
Proof.
  intros Ha Hn Hf.
  rewrite (post_crawl_enters_loop _ _ _ _ _ Ha Hn).
  destruct (retry_loop_all_fail engine (url request) bc cc 4 0)
    as (Hr & Hc & _); [reflexivity | intros i Hi; apply Hf; lia |].
  destruct (retry_loop _ _ _ _ _) as [res tr]. simpl in Hr, Hc. subst res.
  eexists _, tr. split; [reflexivity |]. split; [exact Hc |].
  split; [apply failure_payload_success |].
  split; [eexists; split;
          [apply failure_payload_message | apply exn_obj_not_None] |].
  split; [apply failure_payload_content | apply failure_payload_dom].
Qed.

(** C2.  When the engine fails on attempts 1 to 4 and succeeds on attempt
    5, it is invoked exactly five times, consecutive invocations are
    separated by the fixed delay of five seconds, and the response is the
    success payload mapped from the result of attempt 5: [success] is true,
    [raw_markdown] is that result's markdown, each of the eight metadata
    fields is that result's value under its key ([None] when absent), and
    there is no other key. *)
Theorem engine_succeeds_on_fifth_attempt secret authz request bc cc r :
  authenticate secret authz = ret true ->
  normalize CacheMode_member request = ret (bc, cc) ->
  (forall i, i < max_retries - 1 -> fails (engine i (url request) bc cc)) ->
  succeeds_with (engine (max_retries - 1) (url request) bc cc) r ->
  exists d tr,
    post_crawl CacheMode_member engine secret authz request
    = (ret (PDict d), tr)
    /\ invocations tr = 5
    /\ schedule tr = [Call 0; Delay 5; Call 1; Delay 5; Call 2; Delay 5;
                      Call 3; Delay 5; Call 4]
    /\ d = result_mapper r
    /\ d !! "success" = Some (PBool true)
    /\ d !! "raw_markdown" = Some (PStr (raw_markdown (markdown_v2 r)))
    /\ (forall field key,
          In (field, key) metadata_fields ->
          d !! field = Some (match metadata r !! key with
                             | Some v => v
                             | None => PNone
                             end))
    /\ dom d
       = ({[ "success"; "title"; "description"; "type"; "image"; "url";
             "site_name"; "author"; "keywords"; "raw_markdown" ]}
          : gset string).
Proof.
  intros Ha Hn Hf Hs.
  rewrite (post_crawl_enters_loop _ _ _ _ _ Ha Hn).
  destruct (retry_loop_last_succeeds engine (url request) bc cc 4 0 r)
    as (Hr & Hc & Hd); [reflexivity | intros i Hi; apply Hf; lia | exact Hs |].
  destruct (retry_loop _ _ _ _ _) as [res tr]. simpl in Hr, Hc, Hd. subst res.
  exists (result_mapper r), tr. split; [reflexivity |].
  split; [exact Hc |]. split; [exact Hd |]. split; [reflexivity |].
  split; [reflexivity |]. split; [reflexivity |]. split.
  - intros field key Hin. exact (result_mapper_fields r field key Hin).
  - unfold result_mapper. rewrite !dom_insert_L. set_solver.
Qed.

(** C3.  When the engine succeeds on the first attempt, it is invoked
    exactly once, there is no delay and no further attempt, and the
    response's [raw_markdown] is the markdown of the engine's result. *)
Theorem engine_succeeds_on_first_attempt secret authz request bc cc r :
  authenticate secret authz = ret true ->
  normalize CacheMode_member request = ret (bc, cc) ->
  succeeds_with (engine 0 (url request) bc cc) r ->
  exists d tr,
    post_crawl CacheMode_member engine secret authz request
    = (ret (PDict d), tr)
    /\ tr = [EvInvoke 0 (url request) bc cc]
    /\ invocations tr = 1
    /\ schedule tr = [Call 0]
    /\ d !! "raw_markdown" = Some (PStr (raw_markdown (markdown_v2 r))).
Proof.
  intros Ha Hn Hs.
  rewrite (post_crawl_enters_loop _ _ _ _ _ Ha Hn).
  change (seq 0 max_retries) with (0 :: seq 1 4).
  rewrite (retry_loop_success engine (url request) bc cc 0 _ r Hs).
  eexists _, _. split; [reflexivity |]. repeat split.
Qed.

(** When the fifth attempt fails too, the value stored under [message] is
    the exception object of that fifth attempt, not of an earlier one, and
    the failure of every one of the five attempts has been printed, in
    order. *)
Theorem terminal_message_is_last_failure secret authz request bc cc :
  authenticate secret authz = ret true ->
  normalize CacheMode_member request = ret (bc, cc) ->
  (forall i, i < max_retries -> fails (engine i (url request) bc cc)) ->
  exists d tr,
    post_crawl CacheMode_member engine secret authz request
    = (ret (PDict d), tr)
    /\ d !! "message"
       = Some (exn_obj (failure (engine (max_retries - 1) (url request) bc cc)))
    /\ printed_exceptions tr
       = map (fun i => failure (engine i (url request) bc cc))
             (seq 0 max_retries).
Proof.
  intros Ha Hn Hf.
  rewrite (post_crawl_enters_loop _ _ _ _ _ Ha Hn).
  destruct (retry_loop_all_fail engine (url request) bc cc 4 0)
    as (Hr & _ & Hp); [reflexivity | intros i Hi; apply Hf; lia |].
  destruct (retry_loop _ _ _ _ _) as [res tr]. simpl in Hr, Hp. subst res.
  eexists _, tr. split; [reflexivity |].
  split; [apply failure_payload_message | exact Hp].
Qed.

(** An authenticated request whose configuration is marshalled without
    error, with an engine whose errors are [Exception]s, is answered with
    exactly one value, a dictionary with a boolean [success], after one to
    five engine invocations. *)
Theorem one_response_per_request secret authz request bc cc :
  authenticate secret authz = ret true ->
  normalize CacheMode_member request = ret (bc, cc) ->
  (forall i e, engine i (url request) bc cc = EngRaise e ->
               is_Exception e = true) ->
  exists d b tr,
    post_crawl CacheMode_member engine secret authz request
    = (ret (PDict d), tr)
    /\ d !! "success" = Some (PBool b)
    /\ 1 <= invocations tr <= max_retries.
Proof.
  intros Ha Hn Hx.
  rewrite (post_crawl_enters_loop _ _ _ _ _ Ha Hn).
  destruct (retry_loop_returns engine (url request) bc cc 4 0)
    as (d & b & Hr & Hd & Hc); [reflexivity | exact Hx |].
  destruct (retry_loop _ _ _ _ _) as [res tr]. simpl in Hr, Hc. subst res.
  exists d, b, tr. split; [reflexivity |]. split; [exact Hd | exact Hc].
Qed.


(** C6.  An authenticated request that leaves the configuration sections
    out gets no response at all: whatever the engine, the handler raises
    the [AttributeError] of line 39 before the retry loop is entered, so
    nothing with a [success] field is returned and the engine is not
    invoked. *)
Theorem authenticated_request_gets_no_response secret authz u :
  authenticate secret authz = ret true ->
  post_crawl CacheMode_member engine secret authz (bare_request u)
  = (raise no_attribute_get, [])
  /\ exn_class no_attribute_get = AttributeErrorC
  /\ (forall v tr,
        post_crawl CacheMode_member engine secret authz (bare_request u)
        <> (ret v, tr))
  /\ invocations
       (post_crawl CacheMode_member engine secret authz (bare_request u)).2
     = 0.
Proof.
  intros Ha.
  assert (post_crawl CacheMode_member engine secret authz (bare_request u)
          = (raise no_attribute_get, [])) as E.
  { unfold post_crawl. rewrite Ha. reflexivity. }
  rewrite E. split; [reflexivity |]. split; [reflexivity |].
  split; [intros v tr H; discriminate H | reflexivity].
Qed.

(** C8.  When the fifth attempt fails by raising an error, the value stored
    under [message] is the exception object itself (line 116), not its
    description: it is no string, and what the response encoder makes of
    it, for an exception other than an [HTTPException], is the empty
    object, whatever the description was. *)
Theorem terminal_message_drops_description secret authz request bc cc e :
  authenticate secret authz = ret true ->
  normalize CacheMode_member request = ret (bc, cc) ->
  (forall i, i < max_retries -> fails (engine i (url request) bc cc)) ->
  engine (max_retries - 1) (url request) bc cc = EngRaise e ->
  (forall status, exn_class e <> HTTPExceptionC status) ->
  exists d tr m,
    post_crawl CacheMode_member engine secret authz request
    = (ret (PDict d), tr)
    /\ d !! "success" = Some (PBool false)
    /\ d !! "message" = Some m
    /\ m = PExc (exn_class e) (exn_detail e)
    /\ (forall s, m <> PStr s)
    /\ encoded m = PDict ∅.
Proof.
  intros Ha Hn Hf He Hc.
  rewrite (post_crawl_enters_loop _ _ _ _ _ Ha Hn).
  destruct (retry_loop_all_fail engine (url request) bc cc 4 0)
    as (Hr & _ & _); [reflexivity | intros i Hi; apply Hf; lia |].
  destruct (retry_loop _ _ _ _ _) as [res tr]. simpl in Hr. subst res.
  change (max_retries - 1) with 4 in *. rewrite He. cbn [failure].
  eexists _, tr, _. split; [reflexivity |].
  split; [reflexivity |]. split; [reflexivity |]. split; [reflexivity |].
  split; [intros s H; discriminate H |].
  unfold exn_obj, encoded, instance_attributes.
  destruct (exn_class e) as [status | | | name | name]; try reflexivity.
  exfalso. exact (Hc status eq_refl).
Qed.

End Crawl.

(** For a result that says [success = false] the exception of lines 90-96
    is an [HTTPException], whose attributes the encoder keeps: there the
    encoded message holds the status 400 and, under [detail], the result's
    error message and status code. *)
Lemma not_success_message_encoded r :
  exists attrs detail,
    encoded (exn_obj (not_success_exception r)) = PDict attrs
    /\ attrs !! "status_code" = Some (PInt 400)
    /\ attrs !! "detail" = Some (PDict detail)
    /\ detail !! "error" = Some (optional_str (error_message r))
    /\ detail !! "status_code" = Some (optional_int (status_code r)).
Proof. eexists _, _. repeat split. Qed.

(** ** Configuration marshalling *)

Lemma get_or_lookup (d : gmap string pyval) key default v :
  d !! key = Some v -> get_or d key default = v.
Proof. intros H. unfold get_or. rewrite H. reflexivity. Qed.

Lemma get_or_absent (d : gmap string pyval) key default :
  d !! key = None -> get_or d key default = default.
Proof. intros H. unfold get_or. rewrite H. reflexivity. Qed.

Lemma get_or_None_inv (d : gmap string pyval) key v :
  get_or d key PNone = v -> v <> PNone -> d !! key = Some v.
Proof.
  unfold get_or. destruct (d !! key); intros H Hv; congruence.
Qed.

Section Normalize.

Variable CacheMode_member : pyval -> bool.
Variable engine :
  nat -> string -> BrowserConfig -> CrawlerRunConfig -> engine_outcome.

(** With the sections present and empty, every field other than the cache
    mode gets its documented default. *)
Lemma normalize_defaults u cm :
  CacheMode_member cm = true ->
  normalize CacheMode_member (minimal_request u cm)
  = ret (default_browser_config, default_run_config cm).
Proof.
  intros H. vm_compute. rewrite H. reflexivity.
Qed.

Lemma normalize_needs_browser_config request :
  browser_config request = None ->
  normalize CacheMode_member request = raise no_attribute_get.
Proof. intros H. unfold normalize. rewrite H. reflexivity. Qed.

Lemma normalize_needs_crawler_config request :
  crawler_config request = None ->
  exists e, normalize CacheMode_member request = raise e.
Proof.
  intros H. unfold normalize. rewrite H.
  destruct (browser_config request); eexists; reflexivity.
Qed.

(** X7.  With the sections present, every field is the supplied value,
    whatever it is, or, when its key is absent, the documented default. *)
Lemma normalize_present request b c cf mg :
  browser_config request = Some b ->
  crawler_config request = Some c ->
  c !! "content_filter" = Some (PDict cf) ->
  c !! "markdown_generator" = Some (PDict mg) ->
  CacheMode_member (dict_get c "cache_mode") = true ->
  normalize CacheMode_member request
  = ret ({| bc_verbose := get_or b "verbose" (PBool true);
            bc_headless := get_or b "headless" (PBool false);
            bc_text_mode := get_or b "text_mode" (PBool true) |},
         {| cache_mode := dict_get c "cache_mode";
            verbose := get_or c "verbose" (PBool true);
            wait_until := get_or c "wait_until" (PStr "load");
            only_text := get_or c "only_text" (PBool true);
            excluded_tags := get_or c "excluded_tags" default_excluded_tags;
            exclude_external_links :=
              get_or c "exclude_external_links" (PBool true);
            exclude_social_media_links :=
              get_or c "exclude_social_media_links" (PBool true);
            exclude_external_images :=
              get_or c "exclude_external_images" (PBool true);
            remove_overlay_elements :=
              get_or c "remove_overlay_elements" (PBool true);
            page_timeout := get_or c "page_timeout" (PInt 180000);
            content_filter :=
              {| threshold := get_or cf "threshold" (PFloat "0.9");
                 threshold_type := get_or cf "threshold_type" (PStr "dynamic");
                 min_word_threshold :=
                   get_or cf "min_word_threshold" (PInt 50) |};
            markdown_generator :=
              {| ignore_links := get_or mg "ignore_links" (PBool true);
                 ignore_images := get_or mg "ignore_images" (PBool true);
                 escape_html := get_or mg "escape_html" (PBool true) |} |}).
Proof.
  intros Hb Hc Hcf Hmg Hcm. unfold normalize, CacheMode.
  rewrite Hb, Hc. cbn [optional_dict py_get bind ret].
  rewrite (get_or_lookup _ _ _ _ Hcf). cbn [py_get bind ret].
  rewrite (get_or_lookup _ _ _ _ Hmg). cbn [py_get bind ret].
  fold (dict_get c "cache_mode"). rewrite Hcm. reflexivity.
Qed.

(** The handler gets past line 78 only for such requests. *)
Lemma normalize_requires_sections request bc cc :
  normalize CacheMode_member request = ret (bc, cc) ->
  exists b c cf mg,
    browser_config request = Some b
    /\ crawler_config request = Some c
    /\ c !! "content_filter" = Some (PDict cf)
    /\ c !! "markdown_generator" = Some (PDict mg)
    /\ CacheMode_member (dict_get c "cache_mode") = true.
Proof.
  unfold normalize, CacheMode.
  destruct (browser_config request) as [b |]; [| discriminate].
  destruct (crawler_config request) as [c |]; [| discriminate].
  cbn [optional_dict py_get bind ret].
  destruct (get_or c "content_filter" PNone) as [| | | | | | cf |] eqn:Hcf;
    try discriminate.
  cbn [py_get bind ret].
  destruct (get_or c "markdown_generator" PNone) as [| | | | | | mg |] eqn:Hmg;
    try discriminate.
  cbn [py_get bind ret]. fold (dict_get c "cache_mode").
  destruct (CacheMode_member (dict_get c "cache_mode")) eqn:Hcm;
    [| discriminate].
  intros _. exists b, c, cf, mg.
  repeat split; auto; apply get_or_None_inv; assumption || discriminate.
Qed.

(** C4.  For a request that leaves out both [browser_config] and
    [crawler_config], no default is applied: line 39 calls [.get] on
    [None], the handler raises [AttributeError] and the engine is never
    invoked. *)
Theorem omitted_sections_raise u :
  normalize CacheMode_member (bare_request u) = raise no_attribute_get
  /\ crawl CacheMode_member engine (bare_request u)
     = (raise no_attribute_get, [])
  /\ exn_class no_attribute_get = AttributeErrorC.
Proof. repeat split. Qed.

End Normalize.

(** ** The result mapper *)

(** C5.  For a successful result whose metadata lacks the key a response
    field is read from, the attempt does not raise: it returns the response
    dictionary, and that dictionary has the field, with value [None]. *)
Theorem missing_metadata_key_maps_to_None r field key :
  success r = true ->
  In (field, key) metadata_fields ->
  metadata r !! key = None ->
  attempt (EngResult r) = ret (PDict (result_mapper r))
  /\ result_mapper r !! field = Some PNone.
Proof.
  intros Hs Hin Hk. split.
  - apply attempt_succeeds. split; [reflexivity | exact Hs].
  - rewrite (result_mapper_fields r field key Hin).
    unfold dict_get. rewrite (get_or_absent _ _ _ Hk). reflexivity.
Qed.

(** X15.  The response of a successful attempt has the ten documented keys
    and no other, whatever the metadata holds. *)
Lemma result_mapper_dom r :
  dom (result_mapper r)
  = ({[ "success"; "title"; "description"; "type"; "image"; "url";
        "site_name"; "author"; "keywords"; "raw_markdown" ]} : gset string).
Proof. unfold result_mapper. rewrite !dom_insert_L. set_solver. Qed.

(** ** Authentication *)

Lemma lower_ascii_space c : lower_ascii c = " "%char -> c = " "%char.
Proof.
  destruct c as [[] [] [] [] [] [] [] []]; vm_compute; congruence.
Qed.

Lemma partition_space_app a b :
  (forall c, In c (list_ascii_of_string a) -> c <> " "%char) ->
  partition_space (a ++ String " " b) = (a, b).
Proof.
  induction a as [| c a IH]; simpl; intros H; [reflexivity |].
  destruct (Ascii.eqb_spec c " "%char) as [-> | _].
  - exfalso. apply (H " "%char); auto.
  - rewrite IH by (intros c' Hc'; apply H; auto). reflexivity.
Qed.

Lemma verify_auth_ok secret c :
  verify_auth secret c = ret true
  <-> lower (scheme c) = "bearer" /\ secret = Some (credentials c).
Proof.
  unfold verify_auth, token_matches.
  destruct (String.eqb_spec (lower (scheme c)) "bearer") as [Hs | Hs]; simpl.
  - destruct secret as [s |].
    + destruct (String.eqb_spec (credentials c) s) as [-> | Ht]; simpl.
      * split; auto.
      * split; [discriminate | intros [_ H]; congruence].
    + simpl. split; [discriminate | intros [_ H]; discriminate].
  - split; [discriminate | intros [H _]; contradiction].
Qed.

Lemma verify_auth_total secret c :
  verify_auth secret c = ret true
  \/ verify_auth secret c
     = raise (HTTPException 401 (PStr "Invalid or missing token")).
Proof. unfold verify_auth. destruct (_ || _); auto. Qed.

Lemma HTTPBearer_call_rejects authz e :
  HTTPBearer_call authz = raise e ->
  e = HTTPException 403 (PStr "Not authenticated")
  \/ e = HTTPException 403 (PStr "Invalid authentication credentials").
Proof.
  unfold HTTPBearer_call.
  destruct (get_authorization_scheme_param authz) as [sch param].
  destruct (_ || _); [intros H; injection H as <-; auto |].
  destruct (negb _); [intros H; injection H as <-; auto | discriminate].
Qed.

(** X11.  The gate lets a request through exactly when its header is a
    scheme word that lower-cases to "bearer", a space, and the configured
    secret itself, which is not empty. *)
Lemma authenticate_ok secret authz :
  authenticate secret authz = ret true
  <-> exists sch tok,
        get_authorization_scheme_param authz = (sch, tok)
        /\ lower sch = "bearer" /\ tok <> "" /\ secret = Some tok.
Proof.
  unfold authenticate, HTTPBearer_call.
  destruct (get_authorization_scheme_param authz) as [sch tok].
  split.
  - destruct (String.eqb_spec sch "") as [-> | Hs]; simpl; [discriminate |].
    destruct (String.eqb_spec tok "") as [-> | Ht]; simpl; [discriminate |].
    destruct (String.eqb_spec (lower sch) "bearer") as [Hl | Hl]; simpl;
      [| discriminate].
    intros H. apply verify_auth_ok in H as [_ H]. simpl in H.
    exists sch, tok. auto.
  - intros (sch' & tok' & E & Hl & Ht & Hsec). injection E as <- <-.
    destruct (String.eqb_spec sch "") as [-> | Hs]; [discriminate Hl |].
    destruct (String.eqb_spec tok "") as [-> | _]; [contradiction |].
    simpl. rewrite Hl. simpl. apply verify_auth_ok. auto.
Qed.

Section Gate.

Variable CacheMode_member : pyval -> bool.
Variable engine :
  nat -> string -> BrowserConfig -> CrawlerRunConfig -> engine_outcome.

(** C7, as amended.  A request that does not pass the gate is answered
    with an HTTP error and the engine is invoked zero times.  When its
    header carries a bearer scheme word and a token, the token is not the
    configured secret and the error is 401 "Invalid or missing token";
    otherwise (no header, no token, another scheme word) the security
    scheme itself has rejected the request, with a 403. *)
Theorem unauthenticated_request_is_rejected secret authz request :
  authenticate secret authz <> ret true ->
  exists e,
    post_crawl CacheMode_member engine secret authz request = (raise e, [])
    /\ invocations
         (post_crawl CacheMode_member engine secret authz request).2 = 0
    /\ match HTTPBearer_call authz with
       | inr c =>
           secret <> Some (credentials c)
           /\ e = HTTPException 401 (PStr "Invalid or missing token")
       | inl e' =>
           e = e'
           /\ (e = HTTPException 403 (PStr "Not authenticated")
               \/ e = HTTPException 403
                        (PStr "Invalid authentication credentials"))
       end.
Proof.
  intros Hno. unfold post_crawl.
  destruct (authenticate secret authz) as [e | b] eqn:Ha.
  - exists e. split; [reflexivity |]. split; [reflexivity |].
    unfold authenticate in Ha.
    destruct (HTTPBearer_call authz) as [e' | c] eqn:Hb; simpl in Ha.
    + injection Ha as ->. split; [reflexivity |].
      apply (HTTPBearer_call_rejects authz). exact Hb.
    + destruct (verify_auth_total secret c) as [H | H];
        rewrite H in Ha; [discriminate |].
      injection Ha as <-. split; [| reflexivity].
      intros Hsec. unfold HTTPBearer_call in Hb.
      destruct (get_authorization_scheme_param authz) as [sch tok].
      destruct (_ || _); [discriminate |].
      destruct (String.eqb_spec (lower sch) "bearer") as [Hl | Hl];
        [| discriminate].
      simpl in Hb. injection Hb as <-.
      assert (verify_auth secret {| scheme := sch; credentials := tok |}
              = ret true) as Hok by (apply verify_auth_ok; auto).
      rewrite Hok in H. discriminate.
  - exfalso. apply Hno. unfold authenticate in *.
    destruct (HTTPBearer_call authz) as [e' | c]; [discriminate |].
    simpl in *. destruct (verify_auth_total secret c) as [H | H];
      rewrite H in Ha; [symmetry; exact Ha | discriminate].
Qed.

End Gate.

(** ** The delay and the event loop *)

Section LoopTraces.

Variable engine :
  nat -> string -> BrowserConfig -> CrawlerRunConfig -> engine_outcome.
Variables (u : string) (bc : BrowserConfig) (cc : CrawlerRunConfig).

Lemma retry_loop_cases i rest :
  let loop := retry_loop engine u bc cc in
  (exists res, loop (i :: rest) = (res, [EvInvoke i u bc cc]))
  \/ (exists res l1 l2,
        loop (i :: rest) = (res, [EvInvoke i u bc cc; EvPrint l1; EvPrint l2]))
  \/ (i <> max_retries - 1 /\ exists l1 l2,
        loop (i :: rest)
        = ((loop rest).1,
           EvInvoke i u bc cc :: EvPrint l1 :: EvPrint l2 :: EvSleep 5
             :: (loop rest).2)).
Proof.
  cbn zeta. cbn [retry_loop].
  destruct (attempt (engine i u bc cc)) as [ex | v]; [| eauto].
  destruct (is_Exception ex); [| eauto].
  destruct (Nat.eqb_spec i (max_retries - 1)) as [Hi | Hi].
  - right. left. eauto.
  - right. right. split; [exact Hi |].
    destruct (retry_loop engine u bc cc rest). eauto.
Qed.

Lemma retry_loop_starts_with_call i rest :
  EventLoop.at_call (retry_loop engine u bc cc (i :: rest)).2 = true.
Proof.
  destruct (retry_loop_cases i rest)
    as [(res & ->) | [(res & l1 & l2 & ->) | (_ & l1 & l2 & ->)]];
    reflexivity.
Qed.

Lemma retry_loop_delays_enclosed n a :
  a + n = max_retries ->
  EventLoop.delays_enclosed (retry_loop engine u bc cc (seq a n)).2 = true
  /\ EventLoop.at_delay (retry_loop engine u bc cc (seq a n)).2 = false.
Proof.
  revert a. induction n as [| n IH]; intros a Ha; [split; reflexivity |].
  change (seq a (S n)) with (a :: seq (S a) n).
  destruct (retry_loop_cases a (seq (S a) n))
    as [(res & ->) | [(res & l1 & l2 & ->) | (Hi & l1 & l2 & ->)]];
    [split; reflexivity | split; reflexivity |].
  destruct n as [| n]; [lia |].
  destruct (IH (S a)) as [He _]; [lia |].
  pose proof (retry_loop_starts_with_call (S a) (seq (S (S a)) n)) as Hc.
  change (S a :: seq (S (S a)) n) with (seq (S a) (S n)) in Hc.
  cbn [snd]. split; [| reflexivity].
  destruct (retry_loop engine u bc cc (seq (S a) (S n))).2 as [| e tr];
    [discriminate |].
  simpl in Hc. cbn [EventLoop.delays_enclosed] in *.
  destruct e; try discriminate. exact He.
Qed.

End LoopTraces.

Module EventLoopFacts.
Import EventLoop.

Lemma delays_enclosed_tail e tr :
  delays_enclosed (e :: tr) = true -> delays_enclosed tr = true.
Proof. simpl. intros H. apply andb_prop in H as [_ H]. exact H. Qed.

Lemma after_holder t0 e r t : after t0 e r = Some t -> t0 = t.
Proof.
  unfold after. destruct r; [discriminate |].
  destruct (suspends e); congruence.
Qed.

Lemma step_task_holder s t0 e0 s' t :
  loop_step s (t0, e0) s' -> holder s' = Some t -> t0 = t.
Proof. inversion 1; subst; simpl; apply after_holder. Qed.

Lemma holds_at_delay_step t s l s' :
  holds_at_delay t s -> loop_step s l s' -> holds_at_delay t s'.
Proof.
  intros [He Hh] Hstep.
  inversion Hstep as [h e r1 r2 Hn | h e r1 r2 Hn]; subst;
    destruct t; simpl in *.
  - split; [exact (delays_enclosed_tail _ _ He) |].
    intros Hd. simpl in Hd |- *. apply andb_prop in He as [He _].
    apply andb_prop in He as [_ He]. rewrite Hd in He.
    destruct r1; [discriminate |]. simpl.
    apply negb_true_iff in He. rewrite He. reflexivity.
  - split; [exact He |]. intros Hd. simpl in Hd. specialize (Hh Hd).
    congruence.
  - split; [exact He |]. intros Hd. simpl in Hd. specialize (Hh Hd).
    congruence.
  - split; [exact (delays_enclosed_tail _ _ He) |].
    intros Hd. simpl in Hd |- *. apply andb_prop in He as [He _].
    apply andb_prop in He as [_ He]. rewrite Hd in He.
    destruct r2; [discriminate |]. simpl.
    apply negb_true_iff in He. rewrite He. reflexivity.
Qed.

Lemma loop_run_split t s pre ls :
  loop_run s (pre ++ ls) -> holds_at_delay t s ->
  exists s', loop_run s' ls /\ holds_at_delay t s'.
Proof.
  revert s. induction pre as [| l pre IH]; intros s Hrun Hinv.
  - exists s. auto.
  - inversion Hrun as [| s0 l0 s1 ls0 Hstep Hrest]; subst.
    apply (IH s1 Hrest). exact (holds_at_delay_step _ _ _ _ Hinv Hstep).
Qed.

Lemma step_consumes t e s s' :
  loop_step s (t, e) s' ->
  exists r, todo t s = e :: r /\ todo t s' = r /\ holder s' = after t e r.
Proof. inversion 1; subst; simpl; eauto. Qed.

Lemma step_needs_thread t e s s' t0 :
  loop_step s (t, e) s' -> holder s = Some t0 -> t = t0.
Proof. inversion 1; subst; simpl; intros ->; destruct t0; congruence. Qed.

(** While a task sleeps the thread is its own: the step before the delay
    and the step after it are steps of the same task, and the latter is
    its next engine call. *)
Lemma delay_keeps_thread t s sch (pre post : list (task * event)) secs :
  loop_run s sch -> holds_at_delay t s ->
  sch = (pre ++ (t, EvSleep secs) :: post)%list ->
  (forall pre' t0 e0, pre = (pre' ++ [(t0, e0)])%list -> t0 = t)
  /\ (forall t1 e1 post', post = (t1, e1) :: post' ->
        t1 = t /\ is_invoke e1 = true).
Proof.
  intros Hrun Hinv ->. split.
  - intros pre' t0 e0 ->. rewrite <- app_assoc in Hrun.
    destruct (loop_run_split t _ _ _ Hrun Hinv) as (s1 & Hrun1 & Hinv1).
    simpl in Hrun1.
    inversion Hrun1 as [| ? ? s2 ? Hstep1 Hrun2]; subst.
    pose proof (holds_at_delay_step _ _ _ _ Hinv1 Hstep1) as [_ Hh2].
    inversion Hrun2 as [| ? ? s3 ? Hstep2 _]; subst.
    destruct (step_consumes _ _ _ _ Hstep2) as (r & Htodo & _).
    rewrite Htodo in Hh2. specialize (Hh2 eq_refl).
    exact (step_task_holder _ _ _ _ _ Hstep1 Hh2).
  - intros t1 e1 post' ->.
    destruct (loop_run_split t _ _ _ Hrun Hinv) as (s1 & Hrun1 & Hinv1).
    inversion Hrun1 as [| ? ? s2 ? Hstep1 Hrun2]; subst.
    destruct (step_consumes _ _ _ _ Hstep1) as (r & Htodo & Htodo' & Hh).
    destruct Hinv1 as [He _]. rewrite Htodo in He. simpl in He.
    apply andb_prop in He as [He _]. apply andb_prop in He as [He _].
    destruct r as [| e' r']; [discriminate |]. simpl in He, Hh.
    inversion Hrun2 as [| ? ? s3 ? Hstep2 _]; subst.
    pose proof (step_needs_thread _ _ _ _ _ Hstep2 Hh) as ->.
    destruct (step_consumes _ _ _ _ Hstep2) as (r2 & Htodo2 & _).
    rewrite Htodo' in Htodo2. injection Htodo2 as <- _. auto.
Qed.

End EventLoopFacts.

Section Stall.

Import EventLoop EventLoopFacts.

Variable CacheMode_member : pyval -> bool.
Variables engine1 engine2 :
  nat -> string -> BrowserConfig -> CrawlerRunConfig -> engine_outcome.

Lemma crawl_delays_enclosed engine request :
  delays_enclosed (crawl CacheMode_member engine request).2 = true
  /\ at_delay (crawl CacheMode_member engine request).2 = false.
Proof.
  unfold crawl.
  destruct (normalize CacheMode_member request) as [e | [bc cc]];
    [split; reflexivity |].
  apply retry_loop_delays_enclosed. reflexivity.
Qed.

(** C9.  The delay of line 120 is [time.sleep], an ordinary call, not an
    [await]: the handler keeps the event loop's thread through it.  In
    every run of the loop with two requests in flight, the step before a
    delay and the step after it belong to the request that sleeps, and
    the latter is that request's next engine call: the other request is
    neither started nor resumed while the first one waits. *)
Theorem delay_stalls_the_event_loop
    request1 request2 sch t secs (pre post : list (task * event)) :
  loop_run (two_requests (crawl CacheMode_member engine1 request1).2
                         (crawl CacheMode_member engine2 request2).2) sch ->
  sch = (pre ++ (t, EvSleep secs) :: post)%list ->
  (forall pre' t0 e0, pre = (pre' ++ [(t0, e0)])%list -> t0 = t)
  /\ (forall t1 e1 post', post = (t1, e1) :: post' ->
        t1 = t /\ is_invoke e1 = true).
Proof.
  intros Hrun Hsch.
  apply (delay_keeps_thread t _ sch pre post secs Hrun); [| exact Hsch].
  destruct (crawl_delays_enclosed engine1 request1) as [He1 Hd1].
  destruct (crawl_delays_enclosed engine2 request2) as [He2 Hd2].
  unfold holds_at_delay, two_requests.
  destruct t; simpl; (split; [assumption | congruence]).
Qed.

End Stall.

(** ** Concrete runs *)

Module Runs.
Import Samples.

Example scheme_word_any_case :
  authenticate secret (Some "BeArEr s3cret") = ret true.
Proof. reflexivity. Qed.

Example token_case_matters :
  authenticate secret (Some "Bearer S3CRET")
  = raise (HTTPException 401 (PStr "Invalid or missing token")).
Proof. reflexivity. Qed.

Example unset_secret_matches_nothing :
  authenticate None (Some "Bearer s3cret")
  = raise (HTTPException 401 (PStr "Invalid or missing token")).
Proof. reflexivity. Qed.

Example other_scheme_word :
  authenticate secret (Some "Basic s3cret")
  = raise (HTTPException 403 (PStr "Invalid authentication credentials")).
Proof. reflexivity. Qed.

Example run_down :
  schedule (post_crawl cache_modes down secret bearer full_request).2
  = [Call 0; Delay 5; Call 1; Delay 5; Call 2; Delay 5; Call 3; Delay 5;
     Call 4].
Proof. reflexivity. Qed.

Example empty_crawler_config_raises :
  normalize cache_modes
    {| url := example_url; browser_config := Some ∅;
       crawler_config := Some ∅ |}
  = raise no_attribute_get.
Proof. reflexivity. Qed.

Example absent_cache_mode_raises :
  normalize cache_modes
    {| url := example_url; browser_config := Some ∅;
       crawler_config :=
         Some (<["content_filter" := PDict ∅]>
              (<["markdown_generator" := PDict ∅]> ∅)) |}
  = raise (Exn ValueErrorC (PStr "is not a valid CacheMode")).
Proof. reflexivity. Qed.

Lemma down_fails i u bc cc : fails (down i u bc cc).
Proof. unfold down. destruct (Nat.even i); reflexivity. Qed.

(** Two authenticated requests that get no response dictionary.  With an
    engine whose error is not an [Exception], the [except] clause of line
    110 does not apply and the error leaves the loop after one invocation;
    with the configuration sections left out, the handler raises before
    the loop. *)
Lemma authenticated_request_without_response :
  authenticate secret bearer = ret true
  /\ post_crawl cache_modes cancelled secret bearer full_request
     = (raise cancelled_error, [call 0])
  /\ post_crawl cache_modes up secret bearer (bare_request example_url)
     = (raise no_attribute_get, [])
  /\ ~ (forall engine request, exists d tr,
          post_crawl cache_modes engine secret bearer request
          = (ret (PDict d), tr)).
Proof.
  split; [reflexivity |]. split; [reflexivity |]. split; [reflexivity |].
  intros H. destruct (H cancelled full_request) as (d & tr & E).
  discriminate E.
Qed.

(** C7, counterexample: a request without an [Authorization] header is
    turned away by the security scheme, with its own status and detail,
    not with 401 "Invalid or missing token". *)
Lemma missing_token_is_not_answered_401 :
  post_crawl cache_modes up secret None full_request
  = (raise (HTTPException 403 (PStr "Not authenticated")), [])
  /\ (post_crawl cache_modes up secret None full_request).1
     <> raise (HTTPException 401 (PStr "Invalid or missing token")).
Proof. split; [reflexivity | discriminate]. Qed.

Lemma engine_fails_on_every_attempt_witness :
  authenticate secret bearer = ret true
  /\ normalize cache_modes full_request
     = ret (default_browser_config, default_run_config (PStr "bypass"))
  /\ exists ex tr,
      post_crawl cache_modes down secret bearer full_request
      = (ret (PDict (failure_payload ex)), tr)
      /\ invocations tr = 5
      /\ failure_payload ex !! "success" = Some (PBool false)
      /\ (exists m, failure_payload ex !! "message" = Some m /\ m <> PNone)
      /\ failure_payload ex !! "content" = Some PNone
      /\ dom (failure_payload ex)
         = ({[ "success"; "message"; "content" ]} : gset string).
Proof.
  split; [reflexivity |]. split; [reflexivity |].
  apply (engine_fails_on_every_attempt cache_modes down secret bearer
           full_request default_browser_config
           (default_run_config (PStr "bypass")));
    [reflexivity | reflexivity | intros i _; apply down_fails].
Defined.

Lemma engine_succeeds_on_fifth_attempt_witness :
  succeeds_with
    (up_at_last 4 example_url default_browser_config
       (default_run_config (PStr "bypass"))) page
  /\ exists d tr,
      post_crawl cache_modes up_at_last secret bearer full_request
      = (ret (PDict d), tr)
      /\ invocations tr = 5
      /\ schedule tr = [Call 0; Delay 5; Call 1; Delay 5; Call 2; Delay 5;
                        Call 3; Delay 5; Call 4]
      /\ d = result_mapper page
      /\ d !! "success" = Some (PBool true)
      /\ d !! "raw_markdown" = Some (PStr (raw_markdown (markdown_v2 page)))
      /\ (forall field key,
            In (field, key) metadata_fields ->
            d !! field = Some (match metadata page !! key with
                               | Some v => v
                               | None => PNone
                               end))
      /\ dom d
         = ({[ "success"; "title"; "description"; "type"; "image"; "url";
               "site_name"; "author"; "keywords"; "raw_markdown" ]}
            : gset string).
Proof.
  split; [split; reflexivity |].
  apply (engine_succeeds_on_fifth_attempt cache_modes up_at_last secret
           bearer full_request default_browser_config
           (default_run_config (PStr "bypass")) page);
    [reflexivity | reflexivity | | split; reflexivity].
  intros i Hi. unfold max_retries in Hi.
  do 4 (destruct i as [| i]; [reflexivity |]). lia.
Defined.

Lemma engine_succeeds_on_first_attempt_witness :
  exists d tr,
    post_crawl cache_modes up secret bearer full_request = (ret (PDict d), tr)
    /\ tr = [EvInvoke 0 (url full_request) default_browser_config
               (default_run_config (PStr "bypass"))]
    /\ invocations tr = 1
    /\ schedule tr = [Call 0]
    /\ d !! "raw_markdown" = Some (PStr (raw_markdown (markdown_v2 page))).
Proof.
  apply (engine_succeeds_on_first_attempt cache_modes up secret bearer
           full_request default_browser_config
           (default_run_config (PStr "bypass")) page);
    [reflexivity | reflexivity | split; reflexivity].
Defined.

Lemma terminal_message_is_last_failure_witness :
  exists d tr,
    post_crawl cache_modes down secret bearer full_request
    = (ret (PDict d), tr)
    /\ d !! "message" = Some (exn_obj timeout_error)
    /\ printed_exceptions tr
       = [timeout_error; not_success_exception not_found; timeout_error;
          not_success_exception not_found; timeout_error].
Proof.
  apply (terminal_message_is_last_failure cache_modes down secret bearer
           full_request default_browser_config
           (default_run_config (PStr "bypass")));
    [reflexivity | reflexivity | intros i _; apply down_fails].
Defined.

Lemma authenticated_request_gets_no_response_witness :
  authenticate secret bearer = ret true
  /\ post_crawl cache_modes up secret bearer (bare_request example_url)
     = (raise no_attribute_get, [])
  /\ exn_class no_attribute_get = AttributeErrorC
  /\ (forall v tr,
        post_crawl cache_modes up secret bearer (bare_request example_url)
        <> (ret v, tr))
  /\ invocations
       (post_crawl cache_modes up secret bearer
          (bare_request example_url)).2 = 0.
Proof.
  split; [reflexivity |].
  apply (authenticated_request_gets_no_response cache_modes up secret bearer
           example_url).
  reflexivity.
Defined.

Lemma terminal_message_drops_description_witness :
  exists d tr m,
    post_crawl cache_modes down secret bearer full_request
    = (ret (PDict d), tr)
    /\ d !! "success" = Some (PBool false)
    /\ d !! "message" = Some m
    /\ m = PExc (OtherExceptionC "TimeoutError") (PStr "page load timed out")
    /\ (forall s, m <> PStr s)
    /\ encoded m = PDict ∅.
Proof.
  apply (terminal_message_drops_description cache_modes down secret bearer
           full_request default_browser_config
           (default_run_config (PStr "bypass")) timeout_error);
    [reflexivity | reflexivity | intros i _; apply down_fails | reflexivity |].
  intros status H. discriminate H.
Defined.

Lemma one_response_per_request_witness :
  exists d b tr,
    post_crawl cache_modes up_after_one secret bearer full_request
    = (ret (PDict d), tr)
    /\ d !! "success" = Some (PBool b)
    /\ 1 <= invocations tr <= max_retries.
Proof.
  apply (one_response_per_request cache_modes up_after_one secret bearer
           full_request default_browser_config
           (default_run_config (PStr "bypass")));
    [reflexivity | reflexivity |].
  intros i e H. unfold up_after_one in H.
  destruct (Nat.eqb i 0); discriminate H.
Defined.


Lemma missing_metadata_key_maps_to_None_witness :
  attempt (EngResult page) = ret (PDict (result_mapper page))
  /\ result_mapper page !! "title" = Some PNone.
Proof.
  apply (missing_metadata_key_maps_to_None page "title" "og:title");
    [reflexivity | left; reflexivity | reflexivity].
Defined.

Lemma unauthenticated_request_is_rejected_witness :
  exists e,
    post_crawl cache_modes up secret (Some "Bearer guess") full_request
    = (raise e, [])
    /\ invocations
         (post_crawl cache_modes up secret (Some "Bearer guess")
            full_request).2 = 0
    /\ match HTTPBearer_call (Some "Bearer guess") with
       | inr c =>
           secret <> Some (credentials c)
           /\ e = HTTPException 401 (PStr "Invalid or missing token")
       | inl e' =>
           e = e'
           /\ (e = HTTPException 403 (PStr "Not authenticated")
               \/ e = HTTPException 403
                        (PStr "Invalid authentication credentials"))
       end.
Proof.
  apply (unauthenticated_request_is_rejected cache_modes up secret
           (Some "Bearer guess") full_request).
  vm_compute. discriminate.
Defined.

Lemma delay_stalls_the_event_loop_witness :
  EventLoop.loop_run
    (EventLoop.two_requests
       (crawl cache_modes up_after_one full_request).2
       (crawl cache_modes up full_request).2) stalled_run
  /\ (forall pre' t0 e0,
        firstn 3 stalled_run = (pre' ++ [(t0, e0)])%list ->
        t0 = EventLoop.First)
  /\ (forall t1 e1 post',
        skipn 4 stalled_run = (t1, e1) :: post' ->
        t1 = EventLoop.First /\ is_invoke e1 = true).
Proof.
  assert (EventLoop.loop_run
            (EventLoop.two_requests
               (crawl cache_modes up_after_one full_request).2
               (crawl cache_modes up full_request).2) stalled_run) as Hrun.
  { vm_compute.
    repeat (eapply EventLoop.run_step;
            [first [apply EventLoop.step_first | apply EventLoop.step_second];
             vm_compute; discriminate |]).
    apply EventLoop.run_stop. }
  split; [exact Hrun |].
  apply (delay_stalls_the_event_loop cache_modes up_after_one up
           full_request full_request stalled_run EventLoop.First 5
           (firstn 3 stalled_run) (skipn 4 stalled_run) Hrun).
  reflexivity.
Defined.

End Runs.


(** * Further properties of the handler *)

Local Open Scope list_scope.

(** ** The retry loop on any engine *)

Lemma schedule_app tr1 tr2 :
  schedule (tr1 ++ tr2) = (schedule tr1 ++ schedule tr2)%list.
Proof.
  induction tr1 as [| [i u bc cc | l | s] tr1 IH]; simpl;
    rewrite ?IH; reflexivity.
Qed.

Lemma printed_exceptions_app tr1 tr2 :
  printed_exceptions (tr1 ++ tr2)
  = (printed_exceptions tr1 ++ printed_exceptions tr2)%list.
Proof.
  induction tr1 as [| [i u bc cc | [ex | u n | k n] | s] tr1 IH]; simpl;
    rewrite ?IH; reflexivity.
Qed.

Lemma calls_app tr1 tr2 : calls (tr1 ++ tr2) = (calls tr1 ++ calls tr2)%list.
Proof. apply List.filter_app. Qed.

Lemma engine_outcome_cases o :
  fails o
  \/ (exists r, succeeds_with o r)
  \/ (exists e, o = EngRaise e /\ is_Exception e = false).
Proof.
  destruct o as [e | r]; simpl.
  - destruct (is_Exception e) eqn:E; [left; reflexivity |].
    right. right. exists e. auto.
  - destruct (success r) eqn:E; [| left; reflexivity].
    right. left. exists r. split; auto.
Qed.

Lemma fails_not_succeeds o r : fails o -> succeeds_with o r -> False.
Proof. intros Hf [-> Hs]. simpl in Hf. congruence. Qed.

Lemma fails_not_uncaught o e :
  fails o -> o = EngRaise e -> is_Exception e = false -> False.
Proof. intros Hf -> He. simpl in Hf. congruence. Qed.

Section AnyEngine.

Variable engine :
  nat -> string -> BrowserConfig -> CrawlerRunConfig -> engine_outcome.
Variables (u : string) (bc : BrowserConfig) (cc : CrawlerRunConfig).

Local Abbreviation out i := (engine i u bc cc).
Local Abbreviation loop := (retry_loop engine u bc cc).
Local Abbreviation retried_at i := (retried u bc cc i (failure (out i))).

Lemma retry_loop_uncaught i rest e :
  out i = EngRaise e -> is_Exception e = false ->
  loop (i :: rest) = (raise e, [EvInvoke i u bc cc]).
Proof.
  intros Ho He. cbn [retry_loop]. rewrite Ho. simpl. rewrite He. reflexivity.
Qed.

(** Failed attempts before the last index are passed over, each leaving its
    four events. *)
Lemma retry_loop_skips_failures k a rest :
  a + k <= max_retries - 1 ->
  (forall i, a <= i < a + k -> fails (out i)) ->
  loop (seq a k ++ rest)
  = ((loop rest).1,
     (flat_map (fun i => retried_at i) (seq a k) ++ (loop rest).2)%list).
Proof.
  revert a. induction k as [| k IH]; intros a Ha Hf.
  - simpl. destruct (loop rest). reflexivity.
  - change (seq a (S k) ++ rest) with (a :: (seq (S a) k ++ rest)).
    rewrite retry_loop_retry by (try apply Hf; lia).
    rewrite IH by (try lia; intros; apply Hf; lia).
    reflexivity.
Qed.

Lemma seq_split_at k :
  k < max_retries ->
  seq 0 max_retries = (seq 0 k ++ k :: seq (S k) (max_retries - S k))%list.
Proof.
  intros Hk. replace max_retries with (k + S (max_retries - S k)) at 1 by lia.
  rewrite seq_app. reflexivity.
Qed.

Lemma schedule_retried k :
  schedule (flat_map (fun i => retried_at i) (seq 0 k))
  = flat_map (fun i => [Call i; Delay 5]) (seq 0 k).
Proof.
  generalize 0. induction k as [| k IH]; intros a; [reflexivity |].
  simpl. rewrite IH. reflexivity.
Qed.

Lemma calls_retried k a :
  calls (flat_map (fun i => retried_at i) (seq a k))
  = map (fun i => EvInvoke i u bc cc) (seq a k).
Proof.
  revert a. induction k as [| k IH]; intros a; [reflexivity |].
  simpl. unfold calls in *. simpl. rewrite IH. reflexivity.
Qed.

Lemma printed_retried k a :
  printed_exceptions (flat_map (fun i => retried_at i) (seq a k))
  = map (fun i => failure (out i)) (seq a k).
Proof.
  revert a. induction k as [| k IH]; intros a; [reflexivity |].
  simpl. rewrite IH. reflexivity.
Qed.

End AnyEngine.

Section LoopOutcomes.

Variable engine :
  nat -> string -> BrowserConfig -> CrawlerRunConfig -> engine_outcome.
Variables (u : string) (bc : BrowserConfig) (cc : CrawlerRunConfig).

Local Abbreviation out i := (engine i u bc cc).
Local Abbreviation loop := (retry_loop engine u bc cc).
Local Abbreviation retried_at i := (retried u bc cc i (failure (out i))).

(** The trace of a run that is decided at attempt [k]: the retried
    failures before it, then its own events. *)
Lemma retry_loop_decided_at k :
  k < max_retries ->
  (forall i, i < k -> fails (out i)) ->
  loop (seq 0 max_retries)
  = ((loop (k :: seq (S k) (max_retries - S k))).1,
     flat_map (fun i => retried_at i) (seq 0 k)
       ++ (loop (k :: seq (S k) (max_retries - S k))).2).
Proof.
  intros Hk Hf. rewrite (seq_split_at k Hk).
  apply retry_loop_skips_failures; [lia | intros i Hi; apply Hf; lia].
Qed.

Lemma trace_decided_at k last :
  calls last = [EvInvoke k u bc cc] ->
  schedule last = [Call k] ->
  let tr := flat_map (fun i => retried_at i) (seq 0 k) ++ last in
  calls tr = map (fun i => EvInvoke i u bc cc) (seq 0 (S k))
  /\ invocations tr = S k
  /\ schedule tr = retries_then_last 0 k.
Proof.
  intros Hc Hs tr. subst tr.
  assert (calls (flat_map (fun i => retried_at i) (seq 0 k) ++ last)
          = map (fun i => EvInvoke i u bc cc) (seq 0 (S k))) as E.
  { rewrite calls_app, calls_retried, Hc, seq_S, map_app. reflexivity. }
  split; [exact E |]. split.
  - unfold invocations. fold (calls (flat_map (fun i => retried_at i)
                                       (seq 0 k) ++ last)).
    rewrite E, length_map, length_seq. reflexivity.
  - rewrite schedule_app, schedule_retried, Hs. reflexivity.
Qed.

Lemma retry_loop_success_at k r :
  k < max_retries ->
  (forall i, i < k -> fails (out i)) ->
  succeeds_with (out k) r ->
  loop (seq 0 max_retries)
  = (ret (PDict (result_mapper r)),
     flat_map (fun i => retried_at i) (seq 0 k) ++ [EvInvoke k u bc cc]).
Proof.
  intros Hk Hf Hs. rewrite (retry_loop_decided_at k Hk Hf).
  rewrite (retry_loop_success engine u bc cc k _ r Hs). reflexivity.
Qed.

Lemma retry_loop_uncaught_at k e :
  k < max_retries ->
  (forall i, i < k -> fails (out i)) ->
  out k = EngRaise e ->
  is_Exception e = false ->
  loop (seq 0 max_retries)
  = (raise e,
     flat_map (fun i => retried_at i) (seq 0 k) ++ [EvInvoke k u bc cc]).
Proof.
  intros Hk Hf Ho He. rewrite (retry_loop_decided_at k Hk Hf).
  rewrite (retry_loop_uncaught engine u bc cc k _ e Ho He). reflexivity.
Qed.

(** X1.  The first attempt that succeeds decides the response: the loop returns
    the mapping of its result after retrying the failures before it, and
    does not consult the engine again. *)
Theorem first_success_wins k r :
  k < max_retries ->
  (forall i, i < k -> fails (out i)) ->
  succeeds_with (out k) r ->
  exists tr,
    loop (seq 0 max_retries) = (ret (PDict (result_mapper r)), tr)
    /\ tr = flat_map (fun i => retried_at i) (seq 0 k) ++ [EvInvoke k u bc cc]
    /\ calls tr = map (fun i => EvInvoke i u bc cc) (seq 0 (S k))
    /\ invocations tr = S k
    /\ schedule tr = retries_then_last 0 k.
Proof.
  intros Hk Hf Hs. rewrite (retry_loop_success_at k r Hk Hf Hs).
  eexists. split; [reflexivity |]. split; [reflexivity |].
  apply trace_decided_at; reflexivity.
Qed.

(** X2.  An error of the engine that is not an [Exception] is not handled: it
    leaves the handler at once, without being printed, without delay and
    without a further attempt. *)
Theorem uncaught_error_leaves_the_loop k e :
  k < max_retries ->
  (forall i, i < k -> fails (out i)) ->
  out k = EngRaise e ->
  is_Exception e = false ->
  exists tr,
    loop (seq 0 max_retries) = (raise e, tr)
    /\ tr = flat_map (fun i => retried_at i) (seq 0 k) ++ [EvInvoke k u bc cc]
    /\ invocations tr = S k
    /\ schedule tr = retries_then_last 0 k
    /\ printed_exceptions tr = map (fun i => failure (out i)) (seq 0 k)
    /\ ~ In e (printed_exceptions tr).
Proof.
  intros Hk Hf Ho He. rewrite (retry_loop_uncaught_at k e Hk Hf Ho He).
  eexists. split; [reflexivity |]. split; [reflexivity |].
  destruct (trace_decided_at k [EvInvoke k u bc cc]) as (_ & Hi & Hsch);
    [reflexivity | reflexivity |].
  split; [exact Hi |]. split; [exact Hsch |].
  assert (printed_exceptions
            (flat_map (fun i => retried_at i) (seq 0 k) ++ [EvInvoke k u bc cc])
          = map (fun i => failure (out i)) (seq 0 k)) as Hp.
  { rewrite printed_exceptions_app, printed_retried. simpl.
    apply app_nil_r. }
  split; [exact Hp |]. rewrite Hp. intros Hin.
  apply in_map_iff in Hin as (i & Hi' & Hin). apply in_seq in Hin.
  assert (fails (out i)) as Hfi by (apply Hf; lia).
  apply attempt_fails in Hfi as [_ Hx]. rewrite Hi' in Hx. congruence.
Qed.

Lemma all_fail_trace :
  (forall i, i < max_retries -> fails (out i)) ->
  loop (seq 0 max_retries)
  = (ret (PDict (failure_payload (failure (out (max_retries - 1))))),
     flat_map (fun i => retried_at i) (seq 0 (max_retries - 1))
       ++ gave_up u bc cc (max_retries - 1) (failure (out (max_retries - 1)))).
Proof.
  intros Hf.
  rewrite (retry_loop_decided_at (max_retries - 1));
    [| unfold max_retries; lia | intros i Hi; apply Hf; lia].
  rewrite retry_loop_give_up;
    [reflexivity | apply Hf; unfold max_retries; lia | reflexivity].
Qed.

Lemma first_decisive n :
  (forall i, i < n -> fails (out i))
  \/ exists k, k < n /\ (forall i, i < k -> fails (out i)) /\ ~ fails (out k).
Proof.
  induction n as [| n [IH | (k & Hk & Hf & Hn)]].
  - left. intros i Hi. lia.
  - destruct (engine_outcome_cases (out n)) as [Hf | [(r & Hs) | (e & Ho & He)]].
    + left. intros i Hi. destruct (Nat.eq_dec i n) as [-> | Hne];
        [exact Hf | apply IH; lia].
    + right. exists n. split; [lia |]. split; [exact IH |].
      intros Hf. exact (fails_not_succeeds _ _ Hf Hs).
    + right. exists n. split; [lia |]. split; [exact IH |].
      intros Hf. exact (fails_not_uncaught _ _ Hf Ho He).
  - right. exists k. split; [lia |]. split; assumption.
Qed.

(** X3.  Whatever the engine does, a run is one of three: decided by the first
    successful attempt, given up after five failed attempts, or broken off
    by the first error that is not an [Exception]. *)
Theorem retry_loop_trichotomy :
  (exists k r,
      k < max_retries /\ (forall i, i < k -> fails (out i))
      /\ succeeds_with (out k) r
      /\ (loop (seq 0 max_retries)).1 = ret (PDict (result_mapper r)))
  \/ ((forall i, i < max_retries -> fails (out i))
      /\ (loop (seq 0 max_retries)).1
         = ret (PDict (failure_payload (failure (out (max_retries - 1))))))
  \/ (exists k e,
        k < max_retries /\ (forall i, i < k -> fails (out i))
        /\ out k = EngRaise e /\ is_Exception e = false
        /\ (loop (seq 0 max_retries)).1 = raise e).
Proof.
  destruct (first_decisive max_retries) as [Hf | (k & Hk & Hf & Hn)].
  - right. left. split; [exact Hf |]. rewrite (all_fail_trace Hf). reflexivity.
  - destruct (engine_outcome_cases (out k)) as [H | [(r & Hs) | (e & Ho & He)]];
      [contradiction | |].
    + left. exists k, r. repeat (split; [assumption |]).
      rewrite (retry_loop_success_at k r Hk Hf Hs). reflexivity.
    + right. right. exists k, e. repeat (split; [assumption |]).
      rewrite (retry_loop_uncaught_at k e Hk Hf Ho He). reflexivity.
Qed.

(** X4.  Whatever the engine does, the engine calls of a run are those of
    attempts 1 to [k + 1] for some [k] below five, in order and with the
    same address and configuration, and two consecutive calls are
    separated by one delay of five seconds: at most five calls and four
    delays. *)
Theorem retry_loop_calls_and_delays :
  exists k,
    k < max_retries
    /\ calls (loop (seq 0 max_retries)).2
       = map (fun i => EvInvoke i u bc cc) (seq 0 (S k))
    /\ invocations (loop (seq 0 max_retries)).2 = S k
    /\ schedule (loop (seq 0 max_retries)).2 = retries_then_last 0 k.
Proof.
  destruct (first_decisive max_retries) as [Hf | (k & Hk & Hf & Hn)].
  - exists (max_retries - 1). split; [unfold max_retries; lia |].
    rewrite (all_fail_trace Hf). cbn [snd].
    apply trace_decided_at; reflexivity.
  - exists k. split; [exact Hk |].
    destruct (engine_outcome_cases (out k)) as [H | [(r & Hs) | (e & Ho & He)]];
      [contradiction | |].
    + rewrite (retry_loop_success_at k r Hk Hf Hs). cbn [snd].
      apply trace_decided_at; reflexivity.
    + rewrite (retry_loop_uncaught_at k e Hk Hf Ho He). cbn [snd].
      apply trace_decided_at; reflexivity.
Qed.

(** X5.  A returned payload with [success] false means that all five attempts
    failed, and one with [success] true that some attempt succeeded. *)
Theorem success_field_reports_the_engine d :
  (loop (seq 0 max_retries)).1 = ret (PDict d) ->
  (d !! "success" = Some (PBool false) ->
   forall i, i < max_retries -> fails (out i))
  /\ (d !! "success" = Some (PBool true) ->
      exists k r, k < max_retries /\ succeeds_with (out k) r
                  /\ d = result_mapper r).
Proof.
  intros Hd.
  destruct (first_decisive max_retries) as [Hf | (k & Hk & Hf & Hn)].
  - rewrite (all_fail_trace Hf) in Hd. injection Hd as <-.
    split; [intros _; exact Hf | intros H; discriminate H].
  - destruct (engine_outcome_cases (out k)) as [H | [(r & Hs) | (e & Ho & He)]];
      [contradiction | |].
    + rewrite (retry_loop_success_at k r Hk Hf Hs) in Hd. injection Hd as <-.
      split; [intros H; discriminate H | intros _; eauto].
    + rewrite (retry_loop_uncaught_at k e Hk Hf Ho He) in Hd. discriminate Hd.
Qed.

End LoopOutcomes.

(** ** Configuration marshalling, further *)

Lemma get_or_insert_ne (d : gmap string pyval) k v key default :
  k <> key -> get_or (<[k := v]> d) key default = get_or d key default.
Proof.
  intros H. unfold get_or. rewrite lookup_insert_ne by exact H. reflexivity.
Qed.

Section Marshalling.

Variable CacheMode_member : pyval -> bool.
Variable engine :
  nat -> string -> BrowserConfig -> CrawlerRunConfig -> engine_outcome.

(** X6.  The handler gets past line 78 exactly for the requests that carry an
    object for [browser_config] and a [crawler_config] holding objects for
    [content_filter] and [markdown_generator] and a [cache_mode] that is a
    value of the enumeration; an absent [cache_mode] counts as [None]. *)
Theorem normalize_succeeds_iff request :
  (exists bc cc, normalize CacheMode_member request = ret (bc, cc))
  <-> exists b c cf mg,
        browser_config request = Some b
        /\ crawler_config request = Some c
        /\ c !! "content_filter" = Some (PDict cf)
        /\ c !! "markdown_generator" = Some (PDict mg)
        /\ CacheMode_member (dict_get c "cache_mode") = true.
Proof.
  split.
  - intros (bc & cc & H). exact (normalize_requires_sections _ _ _ _ H).
  - intros (b & c & cf & mg & Hb & Hc & Hcf & Hmg & Hcm).
    unfold normalize, CacheMode.
    rewrite Hb, Hc. cbn [optional_dict py_get bind ret].
    rewrite (get_or_lookup _ _ _ _ Hcf). cbn [py_get bind ret].
    rewrite (get_or_lookup _ _ _ _ Hmg). cbn [py_get bind ret].
    fold (dict_get c "cache_mode"). rewrite Hcm. eauto.
Qed.

(** X8.  When the marshalling fails, it fails with [AttributeError] or with the
    [ValueError] of the enumeration, the handler raises that error as it is
    (the [try] of line 82 has not been entered), and the engine has not been
    invoked nor anything printed. *)
Theorem marshalling_error_is_raised request e :
  normalize CacheMode_member request = raise e ->
  (e = no_attribute_get
   \/ e = Exn ValueErrorC (PStr "is not a valid CacheMode"))
  /\ crawl CacheMode_member engine request = (raise e, []).
Proof.
  intros H. split; [| unfold crawl; rewrite H; reflexivity].
  revert H. unfold normalize, CacheMode.
  destruct (browser_config request) as [b |];
    [| intros H; injection H as <-; auto].
  destruct (crawler_config request) as [c |];
    [| intros H; injection H as <-; auto].
  cbn [optional_dict py_get bind ret].
  destruct (get_or c "content_filter" PNone);
    try (intros H; injection H as <-; auto; fail).
  cbn [py_get bind ret].
  destruct (get_or c "markdown_generator" PNone);
    try (intros H; injection H as <-; auto; fail).
  cbn [py_get bind ret].
  destruct (CacheMode_member (get_or c "cache_mode" PNone));
    [discriminate | intros H; injection H as <-; auto].
Qed.

(** X9.  The cache mode has no default: without the key, [CacheMode(None)] is
    evaluated before the [or] of line 66 and raises, unless [None] is a
    value of the enumeration. *)
Theorem cache_mode_has_no_default request b c cf mg :
  CacheMode_member PNone = false ->
  browser_config request = Some b ->
  crawler_config request = Some c ->
  c !! "content_filter" = Some (PDict cf) ->
  c !! "markdown_generator" = Some (PDict mg) ->
  c !! "cache_mode" = None ->
  normalize CacheMode_member request
  = raise (Exn ValueErrorC (PStr "is not a valid CacheMode")).
Proof.
  intros HN Hb Hc Hcf Hmg Hcm. unfold normalize, CacheMode.
  rewrite Hb, Hc. cbn [optional_dict py_get bind ret].
  rewrite (get_or_lookup _ _ _ _ Hcf). cbn [py_get bind ret].
  rewrite (get_or_lookup _ _ _ _ Hmg). cbn [py_get bind ret].
  rewrite (get_or_absent _ _ _ Hcm), HN. reflexivity.
Qed.

(** X10.  Keys of [browser_config] and of [crawler_config] that the handler
    does not read are ignored. *)
Theorem unread_keys_are_ignored u b c kb vb kc vc :
  ~ In kb browser_keys ->
  ~ In kc crawler_keys ->
  normalize CacheMode_member
    {| url := u; browser_config := Some (<[kb := vb]> b);
       crawler_config := Some (<[kc := vc]> c) |}
  = normalize CacheMode_member
      {| url := u; browser_config := Some b; crawler_config := Some c |}.
Proof.
  intros Hb Hc. unfold normalize.
  cbn [browser_config crawler_config optional_dict py_get bind ret].
  rewrite !(get_or_insert_ne b kb vb)
    by (intros ->; apply Hb; unfold browser_keys; simpl; tauto).
  rewrite !(get_or_insert_ne c kc vc)
    by (intros ->; apply Hc; unfold crawler_keys; simpl; tauto).
  reflexivity.
Qed.

End Marshalling.

(** ** The gate, further *)

Lemma lower_In c s :
  In c (list_ascii_of_string s) ->
  In (lower_ascii c) (list_ascii_of_string (lower s)).
Proof.
  induction s as [| c' s IH]; simpl; [tauto |].
  intros [-> | H]; [left; reflexivity | right; exact (IH H)].
Qed.

Lemma bearer_word_has_no_space sch c :
  lower sch = "bearer" -> In c (list_ascii_of_string sch) -> c <> " "%char.
Proof.
  intros Hl Hin ->. apply lower_In in Hin. rewrite Hl in Hin.
  simpl in Hin. repeat destruct Hin as [Hin | Hin]; try discriminate Hin.
  exact Hin.
Qed.

Section GateFurther.

Variable CacheMode_member : pyval -> bool.
Variable engine :
  nat -> string -> BrowserConfig -> CrawlerRunConfig -> engine_outcome.

(** X13.  When the environment variable of line 18 is not set, no credentials
    pass [verify_auth], and every request is turned away without the engine
    being invoked. *)
Theorem unset_secret_rejects_every_request authz request :
  (forall c, verify_auth None c
             = raise (HTTPException 401 (PStr "Invalid or missing token")))
  /\ exists e,
      post_crawl CacheMode_member engine None authz request = (raise e, []).
Proof.
  assert (forall c, verify_auth None c
                    = raise (HTTPException 401 (PStr "Invalid or missing token")))
    as Hv.
  { intros c. unfold verify_auth, token_matches.
    rewrite orb_true_r. reflexivity. }
  split; [exact Hv |].
  unfold post_crawl, authenticate.
  destruct (HTTPBearer_call authz) as [e | c]; simpl; [eauto |].
  rewrite Hv. eauto.
Qed.

(** X12.  The scheme word is accepted in any capitalisation: a header made
    of a word that lower-cases to "bearer", one space and the configured
    secret passes the gate (the token is all that follows the first space,
    so the secret may itself contain spaces). *)
Theorem bearer_word_in_any_case sch tok :
  lower sch = "bearer" ->
  tok <> "" ->
  authenticate (Some tok) (Some (sch ++ String " " tok)%string) = ret true.
Proof.
  intros Hl Ht. unfold authenticate, HTTPBearer_call.
  cbn [get_authorization_scheme_param].
  rewrite partition_space_app
    by (intros c Hc; exact (bearer_word_has_no_space sch c Hl Hc)).
  destruct (String.eqb_spec sch "") as [-> | _]; [discriminate Hl |].
  destruct (String.eqb_spec tok "") as [-> | _]; [contradiction |].
  cbn [orb negb bind raise ret]. rewrite Hl. cbn [String.eqb negb bind].
  apply verify_auth_ok. cbn [scheme credentials]. auto.
Qed.

End GateFurther.

(** ** The result mapper, further *)

(** X14.  A metadata value under a mapped key appears unchanged under the field
    read from it. *)
Theorem metadata_values_pass_through r field key v :
  In (field, key) metadata_fields ->
  metadata r !! key = Some v ->
  result_mapper r !! field = Some v.
Proof.
  intros Hin Hk. rewrite (result_mapper_fields r field key Hin).
  unfold dict_get. rewrite (get_or_lookup _ _ _ _ Hk). reflexivity.
Qed.

(** ** Concrete runs, further *)

Module MoreRuns.
Import Samples.

Local Abbreviation run engine :=
  (retry_loop engine example_url default_browser_config
     (default_run_config (PStr "bypass")) (seq 0 max_retries)).

Lemma first_success_wins_witness :
  exists tr,
    run flaky = (ret (PDict (result_mapper page)), tr)
    /\ invocations tr = 3
    /\ schedule tr = [Call 0; Delay 5; Call 1; Delay 5; Call 2].
Proof.
  destruct (first_success_wins flaky example_url default_browser_config
              (default_run_config (PStr "bypass")) 2 page)
    as (tr & Hr & _ & _ & Hi & Hs).
  - unfold max_retries. lia.
  - intros i Hi. do 2 (destruct i as [| i]; [reflexivity |]). lia.
  - split; reflexivity.
  - exists tr. split; [exact Hr |]. split; [exact Hi | exact Hs].
Defined.

Lemma uncaught_error_leaves_the_loop_witness :
  exists tr,
    run cancelled_at_third = (raise cancelled_error, tr)
    /\ invocations tr = 3
    /\ printed_exceptions tr
       = [timeout_error; not_success_exception not_found].
Proof.
  destruct (uncaught_error_leaves_the_loop cancelled_at_third example_url
              default_browser_config (default_run_config (PStr "bypass"))
              2 cancelled_error)
    as (tr & Hr & _ & Hi & _ & Hp & _).
  - unfold max_retries. lia.
  - intros i Hi. do 2 (destruct i as [| i]; [reflexivity |]). lia.
  - reflexivity.
  - reflexivity.
  - exists tr. split; [exact Hr |]. split; [exact Hi | exact Hp].
Defined.

Lemma success_field_reports_the_engine_witness :
  (failure_payload timeout_error !! "success" = Some (PBool false) ->
   forall i, i < max_retries ->
     fails (down i example_url default_browser_config
              (default_run_config (PStr "bypass"))))
  /\ (failure_payload timeout_error !! "success" = Some (PBool true) ->
      exists k r,
        k < max_retries
        /\ succeeds_with (down k example_url default_browser_config
                            (default_run_config (PStr "bypass"))) r
        /\ failure_payload timeout_error = result_mapper r).
Proof.
  apply (success_field_reports_the_engine down example_url
           default_browser_config (default_run_config (PStr "bypass"))
           (failure_payload timeout_error)).
  reflexivity.
Defined.

Lemma normalize_present_witness :
  exists bc cc,
    normalize cache_modes custom_request = ret (bc, cc)
    /\ bc_headless bc = PBool true
    /\ bc_verbose bc = PBool true
    /\ threshold (content_filter cc) = PFloat "0.5"
    /\ page_timeout cc = PNone
    /\ wait_until cc = PStr "load".
Proof.
  eexists _, _. split.
  - apply (normalize_present cache_modes custom_request
             (<["headless" := PBool true]> ∅)
             (<["content_filter" := PDict (<["threshold" := PFloat "0.5"]> ∅)]>
              (<["markdown_generator" := PDict ∅]>
               (<["cache_mode" := PStr "enabled"]>
                (<["page_timeout" := PNone]> ∅))))
             (<["threshold" := PFloat "0.5"]> ∅) ∅); reflexivity.
  - repeat split; reflexivity.
Defined.

Lemma marshalling_error_is_raised_witness :
  (no_attribute_get = no_attribute_get
   \/ no_attribute_get = Exn ValueErrorC (PStr "is not a valid CacheMode"))
  /\ crawl cache_modes up (bare_request example_url)
     = (raise no_attribute_get, []).
Proof.
  apply (marshalling_error_is_raised cache_modes up
           (bare_request example_url) no_attribute_get).
  reflexivity.
Defined.

Lemma cache_mode_has_no_default_witness :
  normalize cache_modes no_cache_mode_request
  = raise (Exn ValueErrorC (PStr "is not a valid CacheMode")).
Proof.
  apply (cache_mode_has_no_default cache_modes no_cache_mode_request ∅
           (<["content_filter" := PDict ∅]>
            (<["markdown_generator" := PDict ∅]> ∅)) ∅ ∅); reflexivity.
Defined.

Lemma unread_keys_are_ignored_witness :
  normalize cache_modes
    {| url := example_url;
       browser_config := Some (<["viewport" := PInt 800]> ∅);
       crawler_config :=
         Some (<["screenshot" := PBool true]>
                 (<["content_filter" := PDict ∅]>
                  (<["markdown_generator" := PDict ∅]>
                   (<["cache_mode" := PStr "bypass"]> ∅)))) |}
  = normalize cache_modes full_request.
Proof.
  apply (unread_keys_are_ignored cache_modes example_url ∅
           (<["content_filter" := PDict ∅]>
            (<["markdown_generator" := PDict ∅]>
             (<["cache_mode" := PStr "bypass"]> ∅)))
           "viewport" (PInt 800) "screenshot" (PBool true));
    unfold browser_keys, crawler_keys; simpl; intros H;
    repeat destruct H as [H | H]; try discriminate H; exact H.
Defined.

Lemma bearer_word_in_any_case_witness :
  authenticate (Some "s3cret") (Some "BEARER s3cret") = ret true.
Proof.
  apply (bearer_word_in_any_case "BEARER" "s3cret");
    [reflexivity | discriminate].
Defined.

Lemma metadata_values_pass_through_witness :
  result_mapper page !! "description" = Some (PStr "An example").
Proof.
  apply (metadata_values_pass_through page "description" "og:description");
    [right; left; reflexivity | reflexivity].
Defined.

End MoreRuns.
